(** * PDF-extraction front end: parser, extraction workflow and edit state

    A shallow embedding of the TypeScript sources

    - [app/api/client.ts]          ([parseCsvContent], [processFile]),
    - [App.tsx]                    ([handleFileUpload], [handleSaveMarkdown],
                                    [handleSaveCsv]),
    - [components/ResultsPanel.tsx] ([handleSaveCsv], [handleTransformCsv],
                                    the [csvVersion] counter),
    - [components/CsvViewer.tsx]   (effective headers and rows,
                                    [handleTransform]),
    - [components/MarkdownViewer.tsx] (effective text),

    followed by the properties of the specification that concern them. *)

From Stdlib Require Import NArith String Ascii.
From stdpp Require Import base decidable numbers option list strings pretty.

Local Open Scope N_scope.

(** ** JavaScript strings

    A JavaScript string is a sequence of UTF-16 code units.  Literals of
    the sources are ASCII and are written through [lit]. *)

Abbreviation jsstring := (list N).

Definition lit (s : string) : jsstring :=
  map N_of_ascii (list_ascii_of_string s).

(** The double quote, the comma, the line feed, the slash, the backslash. *)
Definition QUOTE : N := 34.
Definition COMMA : N := 44.
Definition LF : N := 10.
Definition SLASH : N := 47.
Definition BACKSLASH : N := 92.

(** [WhiteSpace] and [LineTerminator] of ECMAScript: the code units that
    [String.prototype.trim] strips. *)
Definition is_whitespace (c : N) : bool :=
  (c =? 9) || (c =? 10) || (c =? 11) || (c =? 12) || (c =? 13) ||
  (c =? 32) || (c =? 160) || (c =? 5760) ||
  ((8192 <=? c) && (c <=? 8202)) ||
  (c =? 8232) || (c =? 8233) || (c =? 8239) || (c =? 8287) ||
  (c =? 12288) || (c =? 65279).

Fixpoint trimStart (s : jsstring) : jsstring :=
  match s with
  | [] => []
  | c :: s' => if is_whitespace c then trimStart s' else s
  end.

Definition trimEnd (s : jsstring) : jsstring :=
  rev (trimStart (rev s)).

(** [s.trim()] *)
Definition trim (s : jsstring) : jsstring := trimEnd (trimStart s).

(** [s.split(sep)] where [sep] matches one character ([is_sep]): never the
    empty array, the empty string splits into one empty piece. *)
Fixpoint split (is_sep : N -> bool) (s : jsstring) : list jsstring :=
  match s with
  | [] => [[]]
  | c :: s' =>
      if is_sep c then [] :: split is_sep s'
      else match split is_sep s' with
           | piece :: pieces => (c :: piece) :: pieces
           | [] => [[c]]
           end
  end.

(** [s.startsWith(p)] *)
Fixpoint startsWith (p s : jsstring) : bool :=
  match p, s with
  | [], _ => true
  | _ :: _, [] => false
  | a :: p', b :: s' => (a =? b) && startsWith p' s'
  end.

(** ** The tabular text parser ([parseCsvContent], client.ts) *)

Module Parser.

(** The three locals of [parseRow]: [result], [current], [inQuotes]. *)
Record RowState := mkRow {
  result : list jsstring;
  current : jsstring;
  inQuotes : bool
}.

(** Body of the [for] loop of [parseRow] at character [char]. *)
Definition parseRow_body (st : RowState) (char : N) : RowState :=
  if char =? QUOTE then
    mkRow (result st) (current st) (negb (inQuotes st))
  else if (char =? COMMA) && negb (inQuotes st) then
    mkRow (result st ++ [trim (current st)]) [] (inQuotes st)
  else
    mkRow (result st) (current st ++ [char]) (inQuotes st).

(** [for (let i = 0; i < line.length; i++) { const char = line[i]; ... }],
    entered at index [i] with [n] iterations left. *)
Fixpoint parseRow_for (n : nat) (i : nat) (line : jsstring) (st : RowState)
  : RowState :=
  match n with
  | O => st
  | S n' =>
      match line !! i with
      | Some char => parseRow_for n' (S i) line (parseRow_body st char)
      | None => st
      end
  end.

Definition parseRow (line : jsstring) : list jsstring :=
  let st := parseRow_for (length line) 0 line (mkRow [] [] false) in
  result st ++ [trim (current st)].

Record Parsed := mkParsed {
  headers : list jsstring;
  data : list (list jsstring)
}.

(** [parseCsvContent]: [lines[0]] is the head of [lines] and
    [lines.slice(1)] its tail. *)
Definition parseCsvContent (csvContent : jsstring) : Parsed :=
  let lines := split (N.eqb LF) (trim csvContent) in
  if (length lines =? 0)%nat then mkParsed [] []
  else mkParsed (parseRow (hd [] lines)) (map parseRow (tl lines)).

(** Field splitting in the words of the specification: scan the characters
    left to right with a boolean quote state [inq] and a field buffer
    [buf]; a quote toggles the state, a comma outside quotes ends the
    field, anything else is appended; the end of the line emits the
    buffer.  Every emitted field is trimmed. *)
Fixpoint scan_fields (inq : bool) (buf : jsstring) (cs : jsstring)
  : list jsstring :=
  match cs with
  | [] => [trim buf]
  | c :: cs' =>
      if c =? QUOTE then scan_fields (negb inq) buf cs'
      else if (c =? COMMA) && negb inq then trim buf :: scan_fields inq [] cs'
      else scan_fields inq (buf ++ [c]) cs'
  end.

(** A field without a double quote. *)
Definition no_quote (field : jsstring) : Prop :=
  Forall (fun c => c <> QUOTE) field.

End Parser.

(** ** Exceptions, promises and the network

    What a JavaScript [throw] raises: an [Error] object carrying a message,
    or any other value. *)
Inductive Thrown :=
  | ErrorObj (message : jsstring)
  | OtherValue.

(** How an awaited asynchronous call ends: it returns, it throws, or it
    never settles. *)
Inductive outcome (A : Type) :=
  | Returned (a : A)
  | Threw (e : Thrown)
  | Pending.
Arguments Returned {A} a.
Arguments Threw {A} e.
Arguments Pending {A}.

Definition outcome_map {A B : Type} (f : A -> B) (o : outcome A) : outcome B :=
  match o with
  | Returned a => Returned (f a)
  | Threw e => Threw e
  | Pending => Pending
  end.

(** [a || b] on strings: the empty string is falsy. *)
Definition str_or (a b : jsstring) : jsstring :=
  match a with
  | [] => b
  | _ :: _ => a
  end.

(** [a || b] where [a] is an optional string: [undefined] and the empty
    string are falsy. *)
Definition opt_str_or (a : option jsstring) (b : jsstring) : jsstring :=
  match a with
  | Some s => str_or s b
  | None => b
  end.

(** [a || b] where [a] is an optional array: every array, the empty one
    included, is truthy. *)
Definition opt_arr_or {A : Type} (a : option (list A)) (b : list A) : list A :=
  match a with
  | Some l => l
  | None => b
  end.

(** [Promise.all] over promises whose requests are already issued.
    [promises] gives how each one settles, [arrivals] the order in which
    the settlements arrive, by index.  A fulfilment is stored in the slot
    of its own index; the result is the array of slots once every slot is
    filled; the first rejection to arrive rejects the whole. *)
Section PromiseAll.
Context {A : Type}.

Fixpoint promise_all_run (promises : list (outcome A)) (arrivals : list nat)
    (values : list (option A)) : outcome (list A) :=
  match arrivals with
  | [] => Pending
  | i :: arrivals' =>
      match values !! i, promises !! i with
      | Some None, Some (Returned v) =>
          let values' := <[i := Some v]> values in
          match mapM (fun slot : option A => slot) values' with
          | Some vs => Returned vs
          | None => promise_all_run promises arrivals' values'
          end
      | Some None, Some (Threw e) => Threw e
      | _, _ => promise_all_run promises arrivals' values
      end
  end.

Definition promise_all (promises : list (outcome A)) (arrivals : list nat)
  : outcome (list A) :=
  match promises with
  | [] => Returned []
  | _ :: _ =>
      promise_all_run promises arrivals (replicate (length promises) None)
  end.

(** The slots of [promise_all_run] once every promise has arrived but
    those of [arrivals], when the promises fulfil with [vs]. *)
Definition slots_awaiting (vs : list A) (arrivals : list nat) : list (option A) :=
  imap (fun j v => if bool_decide (j ∈ arrivals) then None else Some v) vs.

End PromiseAll.

(** ** The API client (client.ts) *)

Module Api.

(** The browser [File]: its name, its MIME type and its bytes. *)
Record File := mkFile {
  file_name : jsstring;
  file_type : jsstring;
  file_bytes : list N
}.

(** [UploadResponse] (the floating-point [processing_time_seconds] is
    never read and is left out). *)
Record UploadResponse := mkUploadResponse {
  up_status : jsstring;
  up_filename : jsstring;
  merged_path : jsstring
}.

Record TableExtractionResponse := mkTableExtractionResponse {
  te_status : jsstring;
  te_document : jsstring;
  markdown_path : jsstring;
  tables_count : N;
  excel_folder : jsstring;
  excel_files : list jsstring
}.

Record CsvFileData := mkCsvFileData {
  cfd_filename : jsstring;
  cfd_data : list (list jsstring);
  cfd_headers : list jsstring
}.

Record ExtractionResult := mkExtractionResult {
  res_markdown_content : jsstring;
  res_markdown_filename : jsstring;
  csv_files : option (list CsvFileData);
  document_name : jsstring
}.

(** Success payload of the tidy transform: optional headers, rows. *)
Record TidyResponse := mkTidyResponse {
  tidy_headers : option (list jsstring);
  tidy_rows : list (list jsstring)
}.

(** The remote extraction service: how each endpoint answers.  An answer
    with [!response.ok], or a failed [fetch], is a [Threw]. *)
Record Server := mkServer {
  srv_upload : File -> outcome UploadResponse;
  srv_download : jsstring -> outcome jsstring;
  srv_filter_tables : jsstring -> outcome TableExtractionResponse;
  srv_download_table : jsstring -> jsstring -> outcome jsstring;
  srv_transform2tidy : list (list jsstring) -> nat -> outcome TidyResponse
}.

(** The requests sent, oldest first. *)
Inductive Request :=
  | POST_upload (file : File)
  | GET_download (documentName : jsstring)
  | POST_filter_tables (document : jsstring)
  | GET_download_table (document filename : jsstring)
  | POST_transform2tidy (rows : list (list jsstring)) (tableIndex : nat).

(** Asynchronous client code: it extends the log of requests and ends
    in an [outcome]. *)
Definition Net (A : Type) : Type := list Request -> list Request * outcome A.

Definition ret {A : Type} (a : A) : Net A := fun log => (log, Returned a).

Definition bind {A B : Type} (m : Net A) (k : A -> Net B) : Net B :=
  fun log =>
    match m log with
    | (log', Returned a) => k a log'
    | (log', Threw e) => (log', Threw e)
    | (log', Pending) => (log', Pending)
    end.

(** [try { m } catch (error) { handler error }] *)
Definition try_catch {A : Type} (m : Net A) (handler : Thrown -> Net A) : Net A :=
  fun log =>
    match m log with
    | (log', Threw e) => handler e log'
    | r => r
    end.

(** One [fetch] with the checks that follow it. *)
Definition request {A : Type} (req : Request) (answer : outcome A) : Net A :=
  fun log => (log ++ [req], answer).

Notation "'let_await' x ':=' m 'in' k" := (bind m (fun x => k))
  (at level 10, x name, m at level 100, k at level 200).

Section Client.
Variable srv : Server.

Definition uploadFile (file : File) : Net UploadResponse :=
  request (POST_upload file) (srv_upload srv file).

Definition downloadMarkdown (documentName : jsstring) : Net jsstring :=
  request (GET_download documentName) (srv_download srv documentName).

Definition filterTables (document : jsstring) : Net TableExtractionResponse :=
  request (POST_filter_tables document) (srv_filter_tables srv document).

Definition downloadTable (document filename : jsstring) : Net jsstring :=
  request (GET_download_table document filename)
          (srv_download_table srv document filename).

Definition transform2tidy (rows : list (list jsstring)) (tableIndex : nat)
  : Net TidyResponse :=
  request (POST_transform2tidy rows tableIndex)
          (srv_transform2tidy srv rows tableIndex).

(** [filePath.split(/[/\\]/).pop() || filePath] *)
Definition table_filename (filePath : jsstring) : jsstring :=
  str_or (default [] (last (split (fun c => (c =? SLASH) || (c =? BACKSLASH)) filePath)))
         filePath.

(** What the callback mapped over [excel_files] does once its download
    has arrived. *)
Definition table_of_download (filename csvContent : jsstring) : CsvFileData :=
  let parsed := Parser.parseCsvContent csvContent in
  mkCsvFileData filename (Parser.data parsed) (Parser.headers parsed).

(** [await Promise.all(excel_files.map(async filePath => ...))]: every
    callback runs up to its [await] at once, so the downloads are
    requested in list order; they arrive in the order [arrivals]. *)
Definition downloadTables (documentName : jsstring) (files : list jsstring)
    (arrivals : list nat) : Net (list CsvFileData) :=
  fun log =>
    let filenames := map table_filename files in
    (log ++ map (GET_download_table documentName) filenames,
     promise_all
       (map (fun filename =>
               outcome_map (table_of_download filename)
                           (srv_download_table srv documentName filename))
            filenames)
       arrivals).

(** [processFile]; [arrivals] is the order in which the table downloads
    of step 4 arrive. *)
Definition processFile (arrivals : list nat) (file : File) : Net ExtractionResult :=
  let_await uploadResult := uploadFile file in
  let documentName := merged_path uploadResult in
  let_await markdownContent := downloadMarkdown documentName in
  let_await csvFiles :=
    try_catch
      (let_await tableResult := filterTables documentName in
       if (0 <? length (excel_files tableResult))%nat
       then downloadTables documentName (excel_files tableResult) arrivals
       else ret [])
      (fun _ => ret []) in
  ret (mkExtractionResult markdownContent (documentName ++ lit ".md")
                          (Some csvFiles) documentName).

End Client.

End Api.

(** [a === b] on strings *)
Definition str_eq (a b : jsstring) : bool := bool_decide (a = b).

(** ** The data model (types.ts) *)

Module Types.

Inductive FileKind := kind_pdf | kind_image.

Inductive Status := status_processing | status_completed | status_error.

Record MarkdownFile := mkMarkdownFile {
  md_content : jsstring;
  md_filename : jsstring;
  editedContent : option jsstring
}.

(** [CsvFile], with the [editedHeaders] that [App] stores and [CsvViewer]
    reads. *)
Record CsvFile := mkCsvFile {
  csv_id : jsstring;
  csv_filename : jsstring;
  csv_data : list (list jsstring);
  csv_headers : list jsstring;
  editedData : option (list (list jsstring));
  editedHeaders : option (list jsstring)
}.

Record ProcessedFile := mkProcessedFile {
  pf_id : jsstring;
  pf_name : jsstring;
  pf_type : FileKind;
  uploadedAt : N;
  status : Status;
  markdown : option MarkdownFile;
  csvFiles : option (list CsvFile)
}.

End Types.

(** ** The viewers (MarkdownViewer.tsx, CsvViewer.tsx): effective values *)

Module MarkdownViewer.
Import Types.

(** [markdown.editedContent || markdown.content] *)
Definition displayContent (markdown : MarkdownFile) : jsstring :=
  opt_str_or (editedContent markdown) (md_content markdown).

End MarkdownViewer.

(** ** The application (App.tsx) *)

Module App.
Import Types Api.

Inductive Toast :=
  | toast_info (msg : jsstring)
  | toast_success (msg : jsstring)
  | toast_error (msg : jsstring).

Record AppState := mkAppState {
  currentFile : option ProcessedFile;
  isProcessing : bool;
  toasts : list Toast
}.

(** [toast.info], [toast.success], [toast.error] *)
Definition toast (t : Toast) (app : AppState) : AppState :=
  mkAppState (currentFile app) (isProcessing app) (toasts app ++ [t]).

Definition setCurrentFile (f : option ProcessedFile -> option ProcessedFile)
    (app : AppState) : AppState :=
  mkAppState (f (currentFile app)) (isProcessing app) (toasts app).

Definition setIsProcessing (b : bool) (app : AppState) : AppState :=
  mkAppState (currentFile app) b (toasts app).

(** The [csvFiles] of the completed file: [csv-0], [csv-1], ... by
    position in [result.csv_files]. *)
Definition csvFiles_of_result (result : ExtractionResult) : list CsvFile :=
  match csv_files result with
  | Some files =>
      imap (fun idx csv =>
              mkCsvFile (lit ("csv-" +:+ pretty idx)) (cfd_filename csv)
                        (cfd_data csv) (cfd_headers csv) None None)
           files
  | None => []
  end.

(** The table of the completed file at position [idx], for the requested
    path [fst requested] answered by the text [snd requested]. *)
Definition table_at (idx : nat) (requested : jsstring * jsstring) : CsvFile :=
  let parsed := Parser.parseCsvContent (snd requested) in
  mkCsvFile (lit ("csv-" +:+ pretty idx)) (table_filename (fst requested))
            (Parser.data parsed) (Parser.headers parsed) None None.

(** [handleFileUpload].  [newId] and [now] stand for the identifier drawn
    from the clock and the random generator and for [new Date()].  While
    [processFile] has not settled the file stays in [processing]. *)
Definition handleFileUpload (srv : Server) (arrivals : list nat)
    (newId : jsstring) (now : N) (file : File)
    (app : AppState) (log : list Request) : AppState * list Request :=
  let processingFile :=
    mkProcessedFile newId (file_name file)
      (if startsWith (lit "image/") (file_type file) then kind_image else kind_pdf)
      now status_processing None None in
  let app :=
    toast (toast_info (lit "Processing file... This may take a moment."))
      (setCurrentFile (fun _ => Some processingFile)
         (setIsProcessing true app)) in
  match processFile srv arrivals file log with
  | (log, Returned result) =>
      let completedFile :=
        mkProcessedFile (pf_id processingFile) (pf_name processingFile)
          (pf_type processingFile) (uploadedAt processingFile)
          status_completed
          (Some (mkMarkdownFile (res_markdown_content result)
                                (res_markdown_filename result) None))
          (Some (csvFiles_of_result result)) in
      (setIsProcessing false
         (toast (toast_success (lit "Extraction completed!"))
            (setCurrentFile (fun _ => Some completedFile) app)),
       log)
  | (log, Threw error) =>
      let errorFile :=
        mkProcessedFile (pf_id processingFile) (pf_name processingFile)
          (pf_type processingFile) (uploadedAt processingFile)
          status_error
          (markdown processingFile) (csvFiles processingFile) in
      (setIsProcessing false
         (toast (toast_error
                   match error with
                   | ErrorObj message => message
                   | OtherValue => lit "Failed to process file"
                   end)
            (setCurrentFile (fun _ => Some errorFile) app)),
       log)
  | (log, Pending) => (app, log)
  end.

(** The updater handed to [setCurrentFile] by [handleSaveMarkdown]. *)
Definition saveMarkdown (content : jsstring) (prev : option ProcessedFile)
  : option ProcessedFile :=
  match prev with
  | Some file =>
      match markdown file with
      | Some md =>
          Some (mkProcessedFile (pf_id file) (pf_name file) (pf_type file)
                  (uploadedAt file) (status file)
                  (Some (mkMarkdownFile (md_content md) (md_filename md)
                                        (Some content)))
                  (csvFiles file))
      | None => prev
      end
  | None => prev
  end.

Definition handleSaveMarkdown (content : jsstring) (app : AppState) : AppState :=
  toast (toast_success (lit "Markdown saved!"))
    (setCurrentFile (saveMarkdown content) app).

(** [{ ...csv, editedData: data.map(row => row.slice(0, csv.headers.length)),
       editedHeaders: headers.slice(0, csv.headers.length) }] *)
Definition overridden (csv : CsvFile) (headers : list jsstring)
    (data : list (list jsstring)) : CsvFile :=
  mkCsvFile (csv_id csv) (csv_filename csv) (csv_data csv) (csv_headers csv)
            (Some (map (fun row => take (length (csv_headers csv)) row) data))
            (Some (take (length (csv_headers csv)) headers)).

(** The updater handed to [setCurrentFile] by [handleSaveCsv]. *)
Definition saveCsv (csvId : jsstring) (headers : list jsstring)
    (data : list (list jsstring)) (prev : option ProcessedFile)
  : option ProcessedFile :=
  match prev with
  | Some file =>
      match csvFiles file with
      | Some files =>
          Some (mkProcessedFile (pf_id file) (pf_name file) (pf_type file)
                  (uploadedAt file) (status file) (markdown file)
                  (Some (map (fun csv =>
                     if str_eq (csv_id csv) csvId
                     then overridden csv headers data
                     else csv) files)))
      | None => prev
      end
  | None => prev
  end.

Definition handleSaveCsv (csvId : jsstring) (headers : list jsstring)
    (data : list (list jsstring)) (app : AppState) : AppState :=
  toast (toast_success (lit "CSV saved!"))
    (setCurrentFile (saveCsv csvId headers data) app).

End App.

(** ** The results panel (ResultsPanel.tsx)

    The panel owns [selectedCsvId] and the [csvVersion] counter; what it
    is handed by its parent ([onSaveCsv], the optional [onTransformCsv])
    acts on the parent's state [P] only.  [handleSaveCsv] is the one of
    the current panel, which hands [onTransformCsv] to the viewer as it
    is; [handleTransformCsv] is the wrapper that the earlier panel hands
    to the viewer instead. *)

Module ResultsPanel.
Import Types.

Record PanelState := mkPanelState {
  selectedCsvId : jsstring;
  csvVersion : nat
}.

(** [setCsvVersion(v => v + 1)] *)
Definition bumpCsvVersion (panel : PanelState) : PanelState :=
  mkPanelState (selectedCsvId panel) (S (csvVersion panel)).

(** [const csvFiles = file?.csvFiles ?? []] *)
Definition csvFilesOf (file : option ProcessedFile) : list CsvFile :=
  default [] (file ≫= csvFiles).

(** [csvFiles.find(c => c.id === selectedCsvId)]: the table handed to
    [CsvViewer]. *)
Definition selectedCsv (file : option ProcessedFile) (csvId : jsstring)
  : option CsvFile :=
  List.find (fun c => str_eq (csv_id c) csvId) (csvFilesOf file).

Section Handlers.
Context {P : Type}.

Definition handleSaveCsv
    (onSaveCsv : jsstring -> list jsstring -> list (list jsstring) -> P -> P)
    (csvId : jsstring) (headers : list jsstring) (data : list (list jsstring))
    (st : PanelState * P) : PanelState * P :=
  (bumpCsvVersion (fst st), onSaveCsv csvId headers data (snd st)).

(** [handleTransformCsv] (earlier panel): the version moves only after
    the awaited callback has returned. *)
Definition handleTransformCsv
    (onTransformCsv : option (jsstring -> list (list jsstring) -> P -> P * outcome unit))
    (csvId : jsstring) (data : list (list jsstring))
    (st : PanelState * P) : (PanelState * P) * outcome unit :=
  match onTransformCsv with
  | Some callback =>
      match callback csvId data (snd st) with
      | (p, Returned _) => ((bumpCsvVersion (fst st), p), Returned tt)
      | (p, Threw e) => ((fst st, p), Threw e)
      | (p, Pending) => ((fst st, p), Pending)
      end
  | None => (st, Returned tt)
  end.

End Handlers.

End ResultsPanel.

(** ** The table viewer (CsvViewer.tsx) *)

Module CsvViewer.
Import Types.

(** Out of editing mode: [csv.editedHeaders || csv.headers] and
    [csv.editedData || csv.data]. *)
Definition displayHeaders (csv : CsvFile) : list jsstring :=
  opt_arr_or (editedHeaders csv) (csv_headers csv).

Definition displayData (csv : CsvFile) : list (list jsstring) :=
  opt_arr_or (editedData csv) (csv_data csv).

Record ViewerState := mkViewerState {
  isTransforming : bool;
  transformError : option jsstring
}.

(** [err instanceof Error ? err.message : 'Transform failed'] *)
Definition shown_error (err : Thrown) : jsstring :=
  match err with
  | ErrorObj message => message
  | OtherValue => lit "Transform failed"
  end.

(** [handleTransform]; [W] is the state of everything above the viewer. *)
Definition handleTransform {W : Type}
    (onTransform : option (jsstring -> list (list jsstring) -> W -> W * outcome unit))
    (csv : CsvFile) (st : ViewerState * W) : (ViewerState * W) * outcome unit :=
  match onTransform with
  | None => (st, Returned tt)
  | Some callback =>
      let data := opt_arr_or (editedData csv) (csv_data csv) in
      match callback (csv_id csv) data (snd st) with
      | (w, Returned _) => ((mkViewerState false None, w), Returned tt)
      | (w, Threw err) =>
          ((mkViewerState false (Some (shown_error err)), w), Returned tt)
      | (w, Pending) => ((mkViewerState true None, w), Pending)
      end
  end.

End CsvViewer.

(** ** The earlier results panel (the revision of ResultsPanel.tsx that
    has [handleTransformCsv])

    It saves rows only, [onSaveCsv(csvId, data)], and hands the viewer
    its own [handleTransformCsv] as [onTransform].  [P] is the state of
    its parent; the state here is the viewer's, the panel's and [P]. *)

Module EarlierPanel.
Import Types.

Inductive Op :=
  | OpSaveText (content : jsstring)
  | OpSaveTable (csvId : jsstring) (data : list (list jsstring))
  | OpTransformTable (csv : CsvFile).

Section Handlers.
Context {P : Type}.

(** What the panel is handed by its parent. *)
Record Props := mkProps {
  onSaveMarkdown : jsstring -> P -> P;
  onSaveCsv : jsstring -> list (list jsstring) -> P -> P;
  onTransformCsv :
    option (jsstring -> list (list jsstring) -> P -> P * outcome unit)
}.

(** [handleSaveCsv]: [onSaveCsv(csvId, data); setCsvVersion(v => v + 1)]. *)
Definition handleSaveCsv
    (onSaveCsv : jsstring -> list (list jsstring) -> P -> P)
    (csvId : jsstring) (data : list (list jsstring))
    (st : ResultsPanel.PanelState * P) : ResultsPanel.PanelState * P :=
  (ResultsPanel.bumpCsvVersion (fst st), onSaveCsv csvId data (snd st)).

(** The Transform2Tidy button of the viewer of [csv], rendered with
    [onTransform={handleTransformCsv}]. *)
Definition transformClick
    (onTransformCsv :
       option (jsstring -> list (list jsstring) -> P -> P * outcome unit))
    (csv : CsvFile)
    (st : CsvViewer.ViewerState * (ResultsPanel.PanelState * P))
  : (CsvViewer.ViewerState * (ResultsPanel.PanelState * P)) * outcome unit :=
  CsvViewer.handleTransform
    (Some (ResultsPanel.handleTransformCsv onTransformCsv)) csv st.

(** One user operation: a text save goes to [onSaveMarkdown] as it is, a
    table save through [handleSaveCsv], a transform through the viewer. *)
Definition step (props : Props)
    (st : CsvViewer.ViewerState * (ResultsPanel.PanelState * P)) (op : Op)
  : CsvViewer.ViewerState * (ResultsPanel.PanelState * P) :=
  match op with
  | OpSaveText content =>
      (fst st, (fst (snd st), onSaveMarkdown props content (snd (snd st))))
  | OpSaveTable csvId data =>
      (fst st, handleSaveCsv (onSaveCsv props) csvId data (snd st))
  | OpTransformTable csv => fst (transformClick (onTransformCsv props) csv st)
  end.

Definition run (props : Props) (ops : list Op)
    (st : CsvViewer.ViewerState * (ResultsPanel.PanelState * P))
  : CsvViewer.ViewerState * (ResultsPanel.PanelState * P) :=
  fold_left (step props) ops st.

(** By how much an operation moves [csvVersion]: one for a table save,
    one for a transform whose callback is there and returns. *)
Definition bumps (props : Props)
    (st : CsvViewer.ViewerState * (ResultsPanel.PanelState * P)) (op : Op) : nat :=
  match op with
  | OpSaveText _ => 0
  | OpSaveTable _ _ => 1
  | OpTransformTable csv =>
      match onTransformCsv props with
      | Some callback =>
          match snd (callback (csv_id csv) (CsvViewer.displayData csv)
                              (snd (snd st))) with
          | Returned _ => 1
          | _ => 0
          end
      | None => 0
      end
  end.

End Handlers.

Arguments Props P : clear implicits.

End EarlierPanel.

(** ** The edit-state operations, wired as the components are

    [App] renders the current [ResultsPanel], which renders
    [MarkdownViewer] and, for the selected table, [CsvViewer]. *)

Module EditState.
Import Types Api.

(** State above the panel: [App]'s state and the request log. *)
Definition Above : Type := App.AppState * list Request.

(** Modelled from the spec: the [transformTable] operation of section 4.3,
    the [onTransformCsv] callback that no [App] of the sources defines
    ([App] renders [ResultsPanel] without it).  It sends the rows it is
    given, the current effective rows of the table, to the tidy transform
    ([transform2tidy], client.ts) with the table's index; on success the
    response becomes the override through the same replacement as
    [handleSaveCsv] (headers the response leaves out stay the effective
    ones); on failure, or for an identifier the file does not have, the
    state is left as it is and the failure is handed to the caller. *)
Definition transformTable (srv : Server) (csvId : jsstring)
    (data : list (list jsstring)) (st : Above) : Above * outcome unit :=
  let '(app, log) := st in
  match list_find (fun c => csv_id c = csvId)
                  (default [] (App.currentFile app ≫= csvFiles)) with
  | None => (st, Threw (ErrorObj (lit "Unknown table")))
  | Some (tableIndex, csv) =>
      match transform2tidy srv data tableIndex log with
      | (log, Returned response) =>
          ((App.setCurrentFile
              (App.saveCsv csvId
                 (default (CsvViewer.displayHeaders csv) (tidy_headers response))
                 (tidy_rows response))
              app,
            log),
           Returned tt)
      | (log, Threw e) => ((app, log), Threw e)
      | (log, Pending) => ((app, log), Pending)
      end
  end.

Record World := mkWorld {
  viewer : CsvViewer.ViewerState;
  panel : ResultsPanel.PanelState;
  app : App.AppState;
  network : list Request
}.

Definition above (w : World) : Above := (app w, network w).

(** The [onTransformCsv] handed to the panel, if any. *)
Definition TransformCallback : Type :=
  option (jsstring -> list (list jsstring) -> Above -> Above * outcome unit).

(** [saveText]: [MarkdownViewer] calls [onSave], which is
    [App.handleSaveMarkdown]. *)
Definition saveText (content : jsstring) (w : World) : World :=
  mkWorld (viewer w) (panel w) (App.handleSaveMarkdown content (app w))
          (network w).

(** [saveTable]: [CsvViewer] calls [onSave], which is the panel's
    [handleSaveCsv] over [App.handleSaveCsv]. *)
Definition saveTable (csvId : jsstring) (headers : list jsstring)
    (data : list (list jsstring)) (w : World) : World :=
  let '(panel', app') :=
    ResultsPanel.handleSaveCsv App.handleSaveCsv csvId headers data
                               (panel w, app w) in
  mkWorld (viewer w) panel' app' (network w).

(** [transformTable]: the viewer of the table [csvId], when the file has
    it, runs [handleTransform] with [onTransform={onTransformCsv}], the
    callback as the panel was handed it; the panel's own state is not
    involved. *)
Definition transformTableOp (onTransformCsv : TransformCallback)
    (csvId : jsstring) (w : World) : World * outcome unit :=
  match ResultsPanel.selectedCsv (App.currentFile (app w)) csvId with
  | None => (w, Returned tt)
  | Some csv =>
      match CsvViewer.handleTransform onTransformCsv csv (viewer w, above w) with
      | ((viewer', (app', log')), r) =>
          (mkWorld viewer' (panel w) app' log', r)
      end
  end.

(** The effective table and the effective text a consumer reads. *)
Definition effectiveTable (w : World) (csvId : jsstring)
  : option (list jsstring * list (list jsstring)) :=
  csv ← ResultsPanel.selectedCsv (App.currentFile (app w)) csvId;
  Some (CsvViewer.displayHeaders csv, CsvViewer.displayData csv).

Definition effectiveText (w : World) : option jsstring :=
  md ← App.currentFile (app w) ≫= markdown;
  Some (MarkdownViewer.displayContent md).

Inductive Op :=
  | OpSaveText (content : jsstring)
  | OpSaveTable (csvId : jsstring) (headers : list jsstring)
                (data : list (list jsstring))
  | OpTransformTable (csvId : jsstring).

Definition step (onTransformCsv : TransformCallback) (w : World) (op : Op)
  : World :=
  match op with
  | OpSaveText content => saveText content w
  | OpSaveTable csvId headers data => saveTable csvId headers data w
  | OpTransformTable csvId => fst (transformTableOp onTransformCsv csvId w)
  end.

Definition run (onTransformCsv : TransformCallback) (ops : list Op) (w : World)
  : World :=
  fold_left (step onTransformCsv) ops w.

(** By how much an operation moves [csvVersion]: one for a table save. *)
Definition bumps (op : Op) : nat :=
  match op with
  | OpSaveTable _ _ _ => 1
  | _ => 0
  end.

End EditState.

(** ** A sample service and a sample document *)

Module Sample.
Import Types Api.

(** The line [a,"b,c",d] of the specification. *)
Definition quoted_line : jsstring :=
  lit "a," ++ [QUOTE] ++ lit "b,c" ++ [QUOTE] ++ lit ",d".

Definition file : File := mkFile (lit "report.pdf") (lit "application/pdf") [37; 80; 68; 70].

Definition table_text (filename : jsstring) : jsstring :=
  if str_eq filename (lit "table_1.csv") then
    lit "Name,Age" ++ [LF] ++ lit "Ann,30"
  else if str_eq filename (lit "table_2.csv") then
    lit "Quarter,Revenue" ++ [LF] ++ lit "Q1,10000"
  else
    lit "Item" ++ [LF] ++ lit "x".

(** Every endpoint answers, but the tidy transform is down. *)
Definition server : Server :=
  mkServer
    (fun f => Returned (mkUploadResponse (lit "success") (file_name f) (lit "report")))
    (fun _ => Returned (lit "# Report"))
    (fun doc =>
       Returned (mkTableExtractionResponse (lit "success") doc (lit "outputs/report.md")
                   3 (lit "outputs/tables")
                   [lit "outputs/tables/table_1.csv"; lit "outputs/tables/table_2.csv";
                    lit "outputs/tables/table_3.csv"]))
    (fun _ filename => Returned (table_text filename))
    (fun _ _ => Threw (ErrorObj (lit "Transform failed: Bad Gateway"))).

(** The same service when the download of the generated text fails. *)
Definition server_without_text : Server :=
  mkServer (srv_upload server)
    (fun _ => Threw (ErrorObj (lit "Download failed")))
    (srv_filter_tables server) (srv_download_table server)
    (srv_transform2tidy server).

(** The same service when table extraction fails. *)
Definition server_without_tables : Server :=
  mkServer (srv_upload server) (srv_download server)
    (fun _ => Threw (ErrorObj (lit "Table extraction failed")))
    (srv_download_table server) (srv_transform2tidy server).

(** The same service with one table only. *)
Definition server_one_table : Server :=
  mkServer (srv_upload server) (srv_download server)
    (fun doc =>
       Returned (mkTableExtractionResponse (lit "success") doc (lit "outputs/report.md")
                   1 (lit "outputs/tables") [lit "outputs/tables/table_1.csv"]))
    (srv_download_table server) (srv_transform2tidy server).

Definition idle : App.AppState := App.mkAppState None false [].

(** A completed document with one two-column table, not yet edited. *)
Definition table0 : CsvFile :=
  mkCsvFile (lit "csv-0") (lit "table_1.csv")
            [[lit "Ann"; lit "30"]] [lit "Name"; lit "Age"] None None.

Definition document : ProcessedFile :=
  mkProcessedFile (lit "1700000000000-k3j9x") (lit "report.pdf") kind_pdf
    1700000000000 status_completed
    (Some (mkMarkdownFile (lit "# Report") (lit "report.md") None))
    (Some [table0]).

Definition world : EditState.World :=
  EditState.mkWorld (CsvViewer.mkViewerState false None)
    (ResultsPanel.mkPanelState (lit "csv-0") 0)
    (App.mkAppState (Some document) false [])
    [].

(** The same document once the table has been edited. *)
Definition edited_world : EditState.World :=
  EditState.saveTable (lit "csv-0") [lit "Who"; lit "Years"]
                      [[lit "Ann"; lit "31"]] world.

Definition edited_table0 : CsvFile :=
  mkCsvFile (lit "csv-0") (lit "table_1.csv")
            [[lit "Ann"; lit "30"]] [lit "Name"; lit "Age"]
            (Some [[lit "Ann"; lit "31"]]) (Some [lit "Who"; lit "Years"]).

End Sample.

(** ** Joining, counting, and the CSV download of the panel *)

(** [parts.join(sep)] *)
Fixpoint join (sep : jsstring) (parts : list jsstring) : jsstring :=
  match parts with
  | [] => []
  | p :: rest =>
      match rest with
      | [] => p
      | _ :: _ => p ++ sep ++ join sep rest
      end
  end.

(** The number of occurrences of the character [c] in [s]. *)
Fixpoint count_char (c : N) (s : jsstring) : nat :=
  match s with
  | [] => O
  | x :: s' => if x =? c then S (count_char c s') else count_char c s'
  end.

(** Neither the first nor the last character of [s] is whitespace. *)
Definition is_trimmed (s : jsstring) : bool :=
  match head s, last s with
  | Some a, Some z => negb (is_whitespace a) && negb (is_whitespace z)
  | _, _ => true
  end.

(** A field that [parseRow] reads back as it is written: no comma, no
    quote, and no whitespace at either end. *)
Definition bare_field (c : jsstring) : bool :=
  forallb (fun x => negb (x =? COMMA) && negb (x =? QUOTE)) c && is_trimmed c.

(** A cell that the export writes and the parser reads back as it is: a
    bare field without a line feed. *)
Definition plain_cell (c : jsstring) : bool :=
  bare_field c && forallb (fun x => negb (x =? LF)) c.

Definition nonempty {A : Type} (l : list A) : bool :=
  match l with
  | [] => false
  | _ :: _ => true
  end.

(** The first cell of the first row and the last cell of the last row are
    not empty. *)
Definition solid_ends (rows : list (list jsstring)) : bool :=
  match head rows ≫= head, last rows ≫= last with
  | Some (_ :: _), Some (_ :: _) => true
  | _, _ => false
  end.

Module Download.
Import Types.

(** What [handleDownloadCsv] hands to the browser: the file name of the
    anchor and the text of the blob. *)
Record Saved := mkSaved {
  saved_as : jsstring;
  saved_content : jsstring
}.

(** [[headers, ...data].map(r => r.join(',')).join('\n')] *)
Definition csvText (headers : list jsstring) (data : list (list jsstring))
  : jsstring :=
  join [LF] (map (join [COMMA]) (headers :: data)).

(** [handleDownloadCsv] (ResultsPanel.tsx): nothing is saved for an
    identifier the file does not have. *)
Definition handleDownloadCsv (file : option ProcessedFile) (csvId : jsstring)
  : option Saved :=
  match ResultsPanel.selectedCsv file csvId with
  | None => None
  | Some csv =>
      Some (mkSaved (csv_filename csv)
                    (csvText (opt_arr_or (editedHeaders csv) (csv_headers csv))
                             (opt_arr_or (editedData csv) (csv_data csv))))
  end.

End Download.

(** A file as the data model wants it: text and tables exactly when it is
    completed. *)
Definition wellFormed (f : Types.ProcessedFile) : bool :=
  match Types.status f, Types.markdown f, Types.csvFiles f with
  | Types.status_completed, Some _, Some _ => true
  | Types.status_processing, None, None => true
  | Types.status_error, None, None => true
  | _, _, _ => false
  end.

(** The sample service with a tidy transform that answers: it hands the
    rows back under the headers [key] and [value]. *)
Module SampleTidy.
Import Api.

Definition server : Server :=
  mkServer (srv_upload Sample.server) (srv_download Sample.server)
    (srv_filter_tables Sample.server) (srv_download_table Sample.server)
    (fun rows _ =>
       Returned (mkTidyResponse (Some [lit "key"; lit "value"]) rows)).

End SampleTidy.

(** Further answers of the sample service: the upload is refused; the
    second table cannot be downloaded. *)
Module SampleFailures.
Import Api.

Definition server_rejecting : Server :=
  mkServer (fun _ => Threw (ErrorObj (lit "Unsupported file")))
    (srv_download Sample.server) (srv_filter_tables Sample.server)
    (srv_download_table Sample.server) (srv_transform2tidy Sample.server).

Definition server_missing_table : Server :=
  mkServer (srv_upload Sample.server) (srv_download Sample.server)
    (srv_filter_tables Sample.server)
    (fun _ filename =>
       if str_eq filename (lit "table_2.csv")
       then Threw (ErrorObj (lit "CSV download failed"))
       else Returned (Sample.table_text filename))
    (srv_transform2tidy Sample.server).

End SampleFailures.

(** ** Editing in the viewers (MarkdownViewer.tsx, CsvViewer.tsx) *)

Module MarkdownEditing.
Import Types.

(** The state of [MarkdownViewer] that editing uses. *)
Record EditorState := mkEditor {
  isEditing : bool;
  editContent : jsstring
}.

(** [useState(markdown.editedContent || markdown.content)] at mount. *)
Definition mount (markdown : MarkdownFile) : EditorState :=
  mkEditor false (opt_str_or (editedContent markdown) (md_content markdown)).

(** The Edit button and the text area. *)
Definition startEdit (st : EditorState) : EditorState :=
  mkEditor true (editContent st).

Definition onChange (value : jsstring) (st : EditorState) : EditorState :=
  mkEditor (isEditing st) value.

(** [handleSave]: [onSave(editContent); setIsEditing(false)]. *)
Definition handleSave {P : Type} (onSave : jsstring -> P -> P)
    (st : EditorState) (p : P) : EditorState * P :=
  (mkEditor false (editContent st), onSave (editContent st) p).

(** [handleCancel] *)
Definition handleCancel (markdown : MarkdownFile) (st : EditorState)
  : EditorState :=
  mkEditor false (opt_str_or (editedContent markdown) (md_content markdown)).

End MarkdownEditing.

Module CsvEditing.
Import Types.

(** The state of [CsvViewer] that editing uses. *)
Record EditorState := mkEditor {
  isEditing : bool;
  editHeaders : list jsstring;
  editData : list (list jsstring)
}.

(** The state at mount. *)
Definition mount : EditorState := mkEditor false [] [].

Definition displayHeaders (csv : CsvFile) (st : EditorState) : list jsstring :=
  if isEditing st then editHeaders st
  else opt_arr_or (editedHeaders csv) (csv_headers csv).

Definition displayData (csv : CsvFile) (st : EditorState)
  : list (list jsstring) :=
  if isEditing st then editData st
  else opt_arr_or (editedData csv) (csv_data csv).

(** [handleStartEdit]: the buffers are copies of what is displayed. *)
Definition handleStartEdit (csv : CsvFile) (st : EditorState) : EditorState :=
  mkEditor true (displayHeaders csv st) (displayData csv st).

(** [handleSave]: [onSave([...editHeaders], editData.map(row => [...row]))]
    and [setIsEditing(false)]. *)
Definition handleSave {P : Type}
    (onSave : list jsstring -> list (list jsstring) -> P -> P)
    (st : EditorState) (p : P) : EditorState * P :=
  (mkEditor false (editHeaders st) (editData st),
   onSave (editHeaders st) (editData st) p).

Definition handleCancel (st : EditorState) : EditorState :=
  mkEditor false (editHeaders st) (editData st).

(** [a[i] = v] on an array: in range it replaces, at the length it
    appends, beyond the length it leaves holes and the array is no
    longer a list of strings. *)
Inductive assigned (A : Type) :=
  | Stored (l : list A)
  | Sparse.
Arguments Stored {A} l.
Arguments Sparse {A}.

Definition assign {A : Type} (l : list A) (i : nat) (v : A) : assigned A :=
  if (i <? length l)%nat then Stored (<[i := v]> l)
  else if (i =? length l)%nat then Stored (l ++ [v])
  else Sparse.

(** How a header or cell change ends: the new state, an array with
    holes, or the [TypeError] of writing into a row that is not there. *)
Inductive edited :=
  | Edited (st : EditorState)
  | Holes
  | TypeError.

(** [handleHeaderChange]: [next = [...prev]; next[index] = value]. *)
Definition handleHeaderChange (index : nat) (value : jsstring)
    (st : EditorState) : edited :=
  match assign (editHeaders st) index value with
  | Stored next => Edited (mkEditor (isEditing st) next (editData st))
  | Sparse => Holes
  end.

(** [handleCellChange]: [next = prev.map(row => [...row]);
    next[rowIndex][colIndex] = value]. *)
Definition handleCellChange (rowIndex colIndex : nat) (value : jsstring)
    (st : EditorState) : edited :=
  match editData st !! rowIndex with
  | None => TypeError
  | Some row =>
      match assign row colIndex value with
      | Stored row' =>
          Edited (mkEditor (isEditing st) (editHeaders st)
                           (<[rowIndex := row']> (editData st)))
      | Sparse => Holes
      end
  end.

(** [handleAddRow]: [[...prev, new Array(editHeaders.length).fill('')]]. *)
Definition handleAddRow (st : EditorState) : EditorState :=
  mkEditor (isEditing st) (editHeaders st)
           (editData st ++ [replicate (length (editHeaders st)) []]).

(** [l.filter((x, i) => keep x i)], entered at index [i]. *)
Fixpoint filter_indexed {A : Type} (keep : A -> nat -> bool) (i : nat)
    (l : list A) : list A :=
  match l with
  | [] => []
  | x :: l' =>
      if keep x i then x :: filter_indexed keep (S i) l'
      else filter_indexed keep (S i) l'
  end.

(** [handleDeleteRow]: [prev.filter((_, i) => i !== rowIndex)]. *)
Definition handleDeleteRow (rowIndex : nat) (st : EditorState) : EditorState :=
  mkEditor (isEditing st) (editHeaders st)
           (filter_indexed (fun _ i => negb (i =? rowIndex)%nat) 0 (editData st)).

End CsvEditing.

(** ** The mock client (client.ts, [mockApiClient]) *)

Module Mock.
Import Api.

Definition DOT : N := 46.

(** Whether the whole of [s] matches [\.[^.]+]: a dot, then one or more
    characters that are not dots. *)
Definition is_extension (s : jsstring) : bool :=
  match s with
  | [] => false
  | c :: rest =>
      (c =? DOT) && nonempty rest && forallb (fun x => negb (x =? DOT)) rest
  end.

(** [name.replace(/\.[^.]+$/, '')]: the leftmost match, which runs to
    the end of the name, is removed. *)
Fixpoint strip_extension (name : jsstring) : jsstring :=
  match name with
  | [] => []
  | c :: name' =>
      if is_extension (c :: name') then [] else c :: strip_extension name'
  end.

Definition uploadFile (file : File) : UploadResponse :=
  mkUploadResponse (lit "success") (file_name file)
                   (strip_extension (file_name file)).

Definition downloadMarkdown (documentName : jsstring) : jsstring :=
  join [LF]
    [lit "# " ++ documentName;
     [];
     lit "## Introduction";
     lit "This is a sample extracted document from the PDF/image processing.";
     [];
     lit "## Main Content";
     lit "- Point 1: Important information";
     lit "- Point 2: More details";
     lit "- Point 3: Additional notes";
     [];
     lit "### Data Analysis";
     lit "The following table shows the extracted data:";
     [];
     lit "| Column 1 | Column 2 | Column 3 |";
     lit "|----------|----------|----------|";
     lit "| Data 1   | Data 2   | Data 3   |";
     [];
     lit "## Conclusion";
     lit "Document extraction completed successfully.";
     []].

Definition filterTables (document : jsstring) : TableExtractionResponse :=
  mkTableExtractionResponse (lit "success") document
    (lit "outputs/" ++ document ++ lit "/" ++ document ++ lit ".md")
    2
    (lit "outputs/" ++ document ++ lit "/tables_csv_" ++ document)
    [lit "table_1.csv"; lit "table_2.csv"].

Definition downloadTable (document filename : jsstring) : jsstring :=
  if str_eq filename (lit "table_1.csv") then
    join [LF]
      [lit "Name,Age,Position,City";
       lit "John Doe,30,Engineer,New York";
       lit "Jane Smith,28,Designer,San Francisco";
       lit "Bob Johnson,35,Manager,Seattle";
       lit "Alice Williams,32,Developer,Austin"]
  else
    join [LF]
      [lit "Quarter,Revenue,Expenses,Profit";
       lit "Q1,10000,8500,1500";
       lit "Q2,12000,9500,2500";
       lit "Q3,15000,11000,4000";
       lit "Q4,18000,13000,5000"].

(** [mockApiClient.processFile]: no request is sent, nothing is caught;
    [arrivals] is the order in which the two timers of the table
    downloads fire. *)
Definition processFile (arrivals : list nat) (file : File) : Net ExtractionResult :=
  let_await uploadResult := ret (uploadFile file) in
  let documentName := merged_path uploadResult in
  let_await markdownContent := ret (downloadMarkdown documentName) in
  let_await tableResult := ret (filterTables documentName) in
  let_await csvFiles :=
    (fun log =>
       (log,
        promise_all
          (map (fun filename =>
                  Returned (table_of_download filename
                              (downloadTable documentName filename)))
               (excel_files tableResult))
          arrivals)) in
  ret (mkExtractionResult markdownContent (documentName ++ lit ".md")
                          (Some csvFiles) documentName).

(** A service that answers as the mock does (the tidy transform of the
    mock hands its input back). *)
Definition server : Server :=
  mkServer (fun file => Returned (uploadFile file))
           (fun documentName => Returned (downloadMarkdown documentName))
           (fun document => Returned (filterTables document))
           (fun document filename => Returned (downloadTable document filename))
           (fun rows _ => Returned (mkTidyResponse None rows)).

End Mock.

(** ** The earlier application (App.tsx, the revision with the
    Transform2Tidy button in the header) *)

Module LegacyApp.
Import Types.

Record AppState := mkAppState {
  currentFile : option ProcessedFile;
  isTransforming : bool;
  toasts : list App.Toast
}.

(** What [api.transform2tidy] is sent: [{ data, headers }]. *)
Record TidyRequest := mkTidyRequest {
  tidy_data : list (list jsstring);
  tidy_request_headers : list jsstring
}.

Definition toast (t : App.Toast) (app : AppState) : AppState :=
  mkAppState (currentFile app) (isTransforming app) (toasts app ++ [t]).

(** [handleSaveCsv]: [{ ...csv, editedData: data }] on the table named;
    nothing happens, and nothing is announced, without a file with
    tables. *)
Definition handleSaveCsv (csvId : jsstring) (data : list (list jsstring))
    (app : AppState) : AppState :=
  match currentFile app with
  | Some file =>
      match csvFiles file with
      | Some files =>
          toast (App.toast_success (lit "CSV saved!"))
            (mkAppState
               (Some (mkProcessedFile (pf_id file) (pf_name file) (pf_type file)
                        (uploadedAt file) (status file) (markdown file)
                        (Some (map (fun csv =>
                           if str_eq (csv_id csv) csvId
                           then mkCsvFile (csv_id csv) (csv_filename csv)
                                  (csv_data csv) (csv_headers csv)
                                  (Some data) (editedHeaders csv)
                           else csv) files))))
               (isTransforming app) (toasts app))
      | None => app
      end
  | None => app
  end.

(** [handleTransform2Tidy]; [answer] is how the service answers the
    request, [sent] the requests sent so far. *)
Definition handleTransform2Tidy (answer : TidyRequest -> outcome unit)
    (app : AppState) (sent : list TidyRequest)
  : (AppState * list TidyRequest) * outcome unit :=
  match currentFile app ≫= csvFiles with
  | Some (first :: _) =>
      let csvData := opt_arr_or (editedData first) (csv_data first) in
      let req := mkTidyRequest csvData (csv_headers first) in
      match answer req with
      | Returned _ =>
          ((mkAppState (currentFile app) false
              (toasts app
                 ++ [App.toast_success (lit "Data transformed to tidy format!")]),
            sent ++ [req]),
           Returned tt)
      | Threw _ =>
          ((mkAppState (currentFile app) false
              (toasts app ++ [App.toast_error (lit "Failed to transform data")]),
            sent ++ [req]),
           Returned tt)
      | Pending =>
          ((mkAppState (currentFile app) true (toasts app), sent ++ [req]),
           Pending)
      end
  | _ =>
      ((toast (App.toast_error (lit "No CSV data available to transform")) app,
        sent),
       Returned tt)
  end.

End LegacyApp.

(** * Properties *)

(** ** Strings *)

Lemma trimStart_whitespace (s : jsstring) :
  forallb is_whitespace s = true -> trimStart s = [].
Proof.
  induction s as [|c s IH]; simpl; [done|].
  intros [Hc Hs]%andb_prop. rewrite Hc. auto.
Qed.

Lemma trim_whitespace (s : jsstring) :
  forallb is_whitespace s = true -> trim s = [].
Proof.
  intros H. unfold trim, trimEnd. by rewrite (trimStart_whitespace s H).
Qed.

Lemma trimStart_Forall (P : N -> Prop) (s : jsstring) :
  Forall P s -> Forall P (trimStart s).
Proof.
  induction 1 as [|c s Hc Hs IH]; simpl; [done|].
  destruct (is_whitespace c); [done | by constructor].
Qed.

Lemma trimEnd_Forall (P : N -> Prop) (s : jsstring) :
  Forall P s -> Forall P (trimEnd s).
Proof.
  intros H. unfold trimEnd.
  apply List.Forall_rev, trimStart_Forall, List.Forall_rev, H.
Qed.

Lemma trim_Forall (P : N -> Prop) (s : jsstring) :
  Forall P s -> Forall P (trim s).
Proof. intros H. apply trimEnd_Forall, trimStart_Forall, H. Qed.

(** ** Promise.all *)

Section PromiseAllFacts.
Context {A : Type}.
Implicit Types (vs : list A) (arrivals : list nat).

Lemma slots_awaiting_lookup vs arrivals j :
  slots_awaiting vs arrivals !! j =
  (fun v => if bool_decide (j ∈ arrivals) then None else Some v) <$> vs !! j.
Proof. unfold slots_awaiting. by rewrite list_lookup_imap. Qed.

Lemma slots_awaiting_nil vs : slots_awaiting vs [] = Some <$> vs.
Proof.
  apply list_eq. intros j.
  rewrite slots_awaiting_lookup, list_lookup_fmap.
  destruct (vs !! j) as [v|]; [|done].
  cbn [fmap option_fmap option_map].
  rewrite bool_decide_eq_false_2; [done | apply not_elem_of_nil].
Qed.

Lemma slots_awaiting_arrive vs i v arrivals :
  vs !! i = Some v -> i ∉ arrivals ->
  <[i := Some v]> (slots_awaiting vs (i :: arrivals)) = slots_awaiting vs arrivals.
Proof.
  intros Hi Hnotin. apply list_eq. intros j.
  destruct (decide (i = j)) as [<-|Hne].
  - rewrite list_lookup_insert_eq.
    + rewrite slots_awaiting_lookup, Hi.
      cbn [fmap option_fmap option_map].
      by rewrite bool_decide_eq_false_2.
    + unfold slots_awaiting. rewrite length_imap. by eapply lookup_lt_Some.
  - rewrite list_lookup_insert_ne by done.
    rewrite !slots_awaiting_lookup.
    destruct (vs !! j) as [vj|]; [|done].
    cbn [fmap option_fmap option_map].
    destruct (decide (j ∈ arrivals)) as [Hin|Hnin].
    + rewrite !bool_decide_eq_true_2; [done | done | by apply list_elem_of_further].
    + rewrite !bool_decide_eq_false_2; [done | done |].
      intros [->|?]%elem_of_cons; done.
Qed.

Lemma slots_awaiting_all vs arrivals :
  (forall j, (j < length vs)%nat -> j ∈ arrivals) ->
  replicate (length vs) None = slots_awaiting vs arrivals.
Proof.
  intros Hall. apply list_eq. intros j.
  rewrite slots_awaiting_lookup.
  destruct (vs !! j) as [v|] eqn:Hj; cbn [fmap option_fmap option_map].
  - pose proof (lookup_lt_Some _ _ _ Hj) as Hlt.
    rewrite bool_decide_eq_true_2 by auto.
    by apply lookup_replicate_2.
  - apply lookup_ge_None in Hj. apply lookup_ge_None.
    by rewrite length_replicate.
Qed.

Lemma promise_all_run_fulfilled vs arrivals :
  NoDup arrivals ->
  (forall i, i ∈ arrivals -> (i < length vs)%nat) ->
  arrivals <> [] ->
  promise_all_run (Returned <$> vs) arrivals (slots_awaiting vs arrivals)
  = Returned vs.
Proof.
  induction arrivals as [|i rest IH]; intros Hnd Hlt Hne; [done|].
  apply NoDup_cons in Hnd as [Hi Hnd].
  destruct (lookup_lt_is_Some_2 vs i) as [v Hv];
    [apply Hlt, list_elem_of_here|].
  cbn [promise_all_run]. rewrite slots_awaiting_lookup, Hv.
  cbn [fmap option_fmap option_map].
  rewrite bool_decide_eq_true_2 by apply list_elem_of_here.
  rewrite list_lookup_fmap, Hv.
  cbn [fmap option_fmap option_map].
  rewrite (slots_awaiting_arrive vs i v rest Hv Hi).
  destruct rest as [|j rest'].
  - rewrite slots_awaiting_nil.
    by rewrite (mapM_fmap_Some (fun slot : option A => slot) Some vs).
  - assert (Hj : (j < length vs)%nat)
      by (apply Hlt, list_elem_of_further, list_elem_of_here).
    destruct (lookup_lt_is_Some_2 vs j Hj) as [vj Hvj].
    rewrite (proj2 (mapM_None (fun slot : option A => slot) _)).
    + apply IH; [done | | done].
      intros k Hk. by apply Hlt, list_elem_of_further.
    + apply Exists_exists. exists None. split; [|done].
      apply list_elem_of_lookup. exists j.
      rewrite slots_awaiting_lookup, Hvj.
      cbn [fmap option_fmap option_map].
      by rewrite bool_decide_eq_true_2 by apply list_elem_of_here.
Qed.

(** Whatever the order of arrival, [Promise.all] over promises that all
    fulfil returns their values in the order of the promises. *)
Lemma promise_all_fulfilled vs arrivals :
  arrivals ≡ₚ seq 0 (length vs) ->
  promise_all (Returned <$> vs) arrivals = Returned vs.
Proof.
  intros Hperm.
  assert (Hrun : vs <> [] ->
            promise_all (Returned <$> vs) arrivals =
            promise_all_run (Returned <$> vs) arrivals
                            (replicate (length vs) None)).
  { intros Hne. unfold promise_all.
    rewrite <- (length_fmap Returned vs).
    destruct (Returned <$> vs) eqn:E; [|done].
    by apply fmap_nil_inv in E. }
  destruct vs as [|v vs']; [done|].
  rewrite Hrun by done.
  rewrite (slots_awaiting_all (v :: vs') arrivals).
  - apply promise_all_run_fulfilled.
    + rewrite Hperm. apply NoDup_seq.
    + intros i Hi. rewrite Hperm in Hi. apply elem_of_seq in Hi. lia.
    + intros ->. apply Permutation_nil_l in Hperm. discriminate.
  - intros j Hj. rewrite Hperm. apply elem_of_seq. lia.
Qed.

End PromiseAllFacts.

(** ** The extraction workflow *)

Section Workflow.
Import Types Api.

Lemma map_is_fmap {A B : Type} (f : A -> B) (l : list A) : map f l = f <$> l.
Proof. induction l as [|a l IH]; simpl; [done | by rewrite IH]. Qed.

Lemma downloads_fulfilled (srv : Server) (doc : jsstring)
    (files contents : list jsstring) :
  Forall2 (fun filePath csvContent =>
             srv_download_table srv doc (table_filename filePath)
             = Returned csvContent) files contents ->
  map (fun filename =>
         outcome_map (table_of_download filename)
                     (srv_download_table srv doc filename))
      (map table_filename files)
  = Returned <$> ((fun fc => table_of_download (table_filename (fst fc)) (snd fc))
                    <$> zip files contents).
Proof.
  induction 1 as [|filePath csvContent files contents Hd _ IH]; [done|].
  cbn [map zip zip_with fmap list_fmap]. rewrite Hd. cbn [outcome_map fst snd].
  f_equal. apply IH.
Qed.

Lemma downloadTables_in_request_order (srv : Server) (doc : jsstring)
    (files contents : list jsstring) (arrivals : list nat) (log : list Request) :
  Forall2 (fun filePath csvContent =>
             srv_download_table srv doc (table_filename filePath)
             = Returned csvContent) files contents ->
  arrivals ≡ₚ seq 0 (length files) ->
  snd (downloadTables srv doc files arrivals log)
  = Returned ((fun fc => table_of_download (table_filename (fst fc)) (snd fc))
                <$> zip files contents).
Proof.
  intros Hd Hperm. unfold downloadTables. cbn [snd].
  rewrite (downloads_fulfilled srv doc files contents Hd).
  apply promise_all_fulfilled.
  rewrite length_fmap, length_zip, <- (Forall2_length _ _ _ Hd), Nat.min_id.
  exact Hperm.
Qed.

Lemma csvFiles_of_result_tables (files contents : list jsstring)
    (md name doc : jsstring) :
  App.csvFiles_of_result
    (mkExtractionResult md name
       (Some ((fun fc => table_of_download (table_filename (fst fc)) (snd fc))
                <$> zip files contents))
       doc)
  = imap App.table_at (zip files contents).
Proof. unfold App.csvFiles_of_result. cbn [csv_files]. by rewrite imap_fmap. Qed.

End Workflow.

Section WorkflowClaims.
Import Types Api.

Lemma processFile_returns (srv : Server) (arrivals : list nat) (file : File)
    (log : list Request) (up : UploadResponse) (md : jsstring)
    (te : TableExtractionResponse) (contents : list jsstring) :
  srv_upload srv file = Returned up ->
  srv_download srv (merged_path up) = Returned md ->
  srv_filter_tables srv (merged_path up) = Returned te ->
  Forall2 (fun filePath csvContent =>
             srv_download_table srv (merged_path up) (table_filename filePath)
             = Returned csvContent) (excel_files te) contents ->
  arrivals ≡ₚ seq 0 (length (excel_files te)) ->
  snd (processFile srv arrivals file log)
  = Returned
      (mkExtractionResult md (merged_path up ++ lit ".md")
         (Some ((fun fc => table_of_download (table_filename (fst fc)) (snd fc))
                  <$> zip (excel_files te) contents))
         (merged_path up)).
Proof.
  intros Hup Hmd Hte Hd Hperm.
  unfold processFile, bind, try_catch, uploadFile, downloadMarkdown,
    filterTables, request, ret.
  rewrite Hup, Hmd, Hte.
  destruct (0 <? length (excel_files te))%nat eqn:Hlen.
  - pose proof (downloadTables_in_request_order srv (merged_path up)
                  (excel_files te) contents arrivals
                  ((log ++ [POST_upload file]) ++ [GET_download (merged_path up)]
                     ++ [POST_filter_tables (merged_path up)]) Hd Hperm) as Hall.
    revert Hall. rewrite !app_assoc.
    destruct (downloadTables _ _ _ _ _) as [log' r]. cbn [snd].
    by intros ->.
  - apply Nat.ltb_ge in Hlen.
    destruct (excel_files te) as [|? ?]; [|simpl in Hlen; lia].
    by apply Forall2_nil_inv_l in Hd as ->.
Qed.

(** C4, as the code has it: when table extraction reports N locations and
    the N downloads all arrive, in any order, the completed document holds
    one table per location, in the order of the request list: the i-th
    table is the parse of the i-th download, under the identifier
    [csv-i] (not [table-i]). *)
Theorem tables_follow_request_order (srv : Server) (arrivals : list nat)
    (newId : jsstring) (now : N) (file : File) (app : App.AppState)
    (log : list Request) (up : UploadResponse) (md : jsstring)
    (te : TableExtractionResponse) (contents : list jsstring) :
  srv_upload srv file = Returned up ->
  srv_download srv (merged_path up) = Returned md ->
  srv_filter_tables srv (merged_path up) = Returned te ->
  Forall2 (fun filePath csvContent =>
             srv_download_table srv (merged_path up) (table_filename filePath)
             = Returned csvContent) (excel_files te) contents ->
  arrivals ≡ₚ seq 0 (length (excel_files te)) ->
  let file' : option ProcessedFile :=
    App.currentFile (fst (App.handleFileUpload srv arrivals newId now file app log)) in
  status <$> file' = Some status_completed /\
  file' ≫= csvFiles = Some (imap App.table_at (zip (excel_files te) contents)) /\
  map csv_id (ResultsPanel.csvFilesOf file')
  = map (fun i : nat => lit ("csv-" +:+ pretty i))
        (seq 0 (length (excel_files te))).
Proof.
  intros Hup Hmd Hte Hd Hperm. unfold App.handleFileUpload.
  pose proof (processFile_returns srv arrivals file log up md te contents
                Hup Hmd Hte Hd Hperm) as Hres.
  destruct (processFile srv arrivals file log) as [log' r].
  cbn [snd] in Hres. subst r.
  cbn -[App.csvFiles_of_result lit].
  rewrite csvFiles_of_result_tables.
  repeat split.
  rewrite !map_is_fmap, fmap_imap. unfold compose, App.table_at. cbn [csv_id].
  rewrite (imap_seq_0 (zip (excel_files te) contents)
             (fun i : nat => lit ("csv-" +:+ pretty i))).
  by rewrite length_zip, <- (Forall2_length _ _ _ Hd), Nat.min_id.
Qed.

Lemma sample_arrivals : [2; 0; 1]%nat ≡ₚ seq 0 3.
Proof.
  change (seq 0 3) with [0; 1; 2]%nat.
  etransitivity; [apply perm_swap|]. apply perm_skip, perm_swap.
Qed.

Lemma tables_follow_request_order_witness :
  let file' : option ProcessedFile :=
    App.currentFile
      (fst (App.handleFileUpload Sample.server [2; 0; 1]%nat (lit "k3j9x") 17
              Sample.file Sample.idle [])) in
  status <$> file' = Some status_completed /\
  file' ≫= csvFiles
  = Some (imap App.table_at
            (zip [lit "outputs/tables/table_1.csv"; lit "outputs/tables/table_2.csv";
                  lit "outputs/tables/table_3.csv"]
                 [Sample.table_text (lit "table_1.csv");
                  Sample.table_text (lit "table_2.csv");
                  Sample.table_text (lit "table_3.csv")])) /\
  map csv_id (ResultsPanel.csvFilesOf file')
  = map (fun i : nat => lit ("csv-" +:+ pretty i)) (seq 0 3).
Proof.
  apply (tables_follow_request_order Sample.server [2; 0; 1]%nat (lit "k3j9x") 17
           Sample.file Sample.idle []
           (mkUploadResponse (lit "success") (lit "report.pdf") (lit "report"))
           (lit "# Report")
           (mkTableExtractionResponse (lit "success") (lit "report")
              (lit "outputs/report.md") 3 (lit "outputs/tables")
              [lit "outputs/tables/table_1.csv"; lit "outputs/tables/table_2.csv";
               lit "outputs/tables/table_3.csv"])
           [Sample.table_text (lit "table_1.csv");
            Sample.table_text (lit "table_2.csv");
            Sample.table_text (lit "table_3.csv")]).
  - reflexivity.
  - reflexivity.
  - reflexivity.
  - repeat constructor.
  - exact sample_arrivals.
Defined.

(** C4 as worded fails on the identifiers: the first table of a
    one-table document is [csv-0], not [table-0]. *)
Lemma first_table_is_not_table_0 :
  let file' : option ProcessedFile :=
    App.currentFile
      (fst (App.handleFileUpload Sample.server_one_table [0%nat] (lit "k3j9x") 17
              Sample.file Sample.idle [])) in
  map csv_id (ResultsPanel.csvFilesOf file') = [lit "csv-0"] /\
  map csv_id (ResultsPanel.csvFilesOf file') <> [lit "table-0"].
Proof. split; [reflexivity | discriminate]. Qed.

(** C5: when the upload is accepted and the download of the generated
    text fails, the document ends in [error] with neither a text nor
    tables, and nothing was requested after the failed download. *)
Theorem text_failure_is_fatal (srv : Server) (arrivals : list nat)
    (newId : jsstring) (now : N) (file : File) (app : App.AppState)
    (log : list Request) (up : UploadResponse) (e : Thrown) :
  srv_upload srv file = Returned up ->
  srv_download srv (merged_path up) = Threw e ->
  let after := App.handleFileUpload srv arrivals newId now file app log in
  status <$> App.currentFile (fst after) = Some status_error /\
  App.currentFile (fst after) ≫= markdown = None /\
  App.currentFile (fst after) ≫= csvFiles = None /\
  snd after = log ++ [POST_upload file; GET_download (merged_path up)].
Proof.
  intros Hup Hmd. unfold App.handleFileUpload, processFile, bind, uploadFile,
    downloadMarkdown, request.
  rewrite Hup, Hmd. cbn. by rewrite <- app_assoc.
Qed.

Lemma text_failure_is_fatal_witness :
  let after :=
    App.handleFileUpload Sample.server_without_text [2; 0; 1]%nat (lit "k3j9x") 17
      Sample.file Sample.idle [] in
  status <$> App.currentFile (fst after) = Some status_error /\
  App.currentFile (fst after) ≫= markdown = None /\
  App.currentFile (fst after) ≫= csvFiles = None /\
  snd after = [] ++ [POST_upload Sample.file; GET_download (lit "report")].
Proof.
  apply (text_failure_is_fatal Sample.server_without_text [2; 0; 1]%nat
           (lit "k3j9x") 17 Sample.file Sample.idle []
           (mkUploadResponse (lit "success") (lit "report.pdf") (lit "report"))
           (ErrorObj (lit "Download failed")));
    reflexivity.
Defined.

(** C6: when the upload and the download of the generated text succeed
    and the table-extraction request fails, [processFile] catches the
    failure and returns, and the document ends in [completed] with its
    text and an empty list of tables. *)
Theorem table_extraction_failure_is_tolerated (srv : Server)
    (arrivals : list nat) (newId : jsstring) (now : N) (file : File)
    (app : App.AppState) (log : list Request) (up : UploadResponse)
    (md : jsstring) (e : Thrown) :
  srv_upload srv file = Returned up ->
  srv_download srv (merged_path up) = Returned md ->
  srv_filter_tables srv (merged_path up) = Threw e ->
  snd (processFile srv arrivals file log)
  = Returned (mkExtractionResult md (merged_path up ++ lit ".md") (Some [])
                                 (merged_path up)) /\
  App.currentFile (fst (App.handleFileUpload srv arrivals newId now file app log))
  = Some (mkProcessedFile newId (file_name file)
            (if startsWith (lit "image/") (file_type file)
             then kind_image else kind_pdf)
            now status_completed
            (Some (mkMarkdownFile md (merged_path up ++ lit ".md") None))
            (Some [])).
Proof.
  intros Hup Hmd Hte. unfold App.handleFileUpload, processFile, bind, try_catch,
    uploadFile, downloadMarkdown, filterTables, request, ret.
  by rewrite Hup, Hmd, Hte.
Qed.

Lemma table_extraction_failure_is_tolerated_witness :
  snd (processFile Sample.server_without_tables [] Sample.file [])
  = Returned (mkExtractionResult (lit "# Report") (lit "report" ++ lit ".md")
                                 (Some []) (lit "report")) /\
  App.currentFile
    (fst (App.handleFileUpload Sample.server_without_tables [] (lit "k3j9x") 17
            Sample.file Sample.idle []))
  = Some (mkProcessedFile (lit "k3j9x") (lit "report.pdf")
            (if startsWith (lit "image/") (lit "application/pdf")
             then kind_image else kind_pdf)
            17 status_completed
            (Some (mkMarkdownFile (lit "# Report") (lit "report" ++ lit ".md") None))
            (Some [])).
Proof.
  apply (table_extraction_failure_is_tolerated Sample.server_without_tables []
           (lit "k3j9x") 17 Sample.file Sample.idle []
           (mkUploadResponse (lit "success") (lit "report.pdf") (lit "report"))
           (lit "# Report") (ErrorObj (lit "Table extraction failed")));
    reflexivity.
Defined.

End WorkflowClaims.

(** ** The edit state *)

Section EditStateFacts.
Import Types Api EditState.

Lemma find_map_same_test {A : Type} (test : A -> bool) (upd : A -> A) (l : list A) :
  (forall a, test (upd a) = test a) ->
  List.find test (map upd l) = upd <$> List.find test l.
Proof.
  intros Htest. induction l as [|a l IH]; simpl; [done|].
  rewrite Htest. by destruct (test a).
Qed.

Lemma selectedCsv_id (file : option ProcessedFile) (csvId : jsstring) (csv : CsvFile) :
  ResultsPanel.selectedCsv file csvId = Some csv -> csv_id csv = csvId.
Proof.
  intros H. apply List.find_some in H as [_ H].
  by apply bool_decide_eq_true_1 in H.
Qed.

Lemma selectedCsv_saveCsv (file : option ProcessedFile) (csvId : jsstring)
    (headers : list jsstring) (data : list (list jsstring)) (csv : CsvFile) :
  ResultsPanel.selectedCsv file csvId = Some csv ->
  ResultsPanel.selectedCsv (App.saveCsv csvId headers data file) csvId
  = Some (App.overridden csv headers data).
Proof.
  intros Hsel. pose proof (selectedCsv_id _ _ _ Hsel) as Hid.
  unfold ResultsPanel.selectedCsv, ResultsPanel.csvFilesOf in *.
  destruct file as [f|]; [|done]. simpl in *.
  destruct (csvFiles f) as [files|]; [|done]. simpl in *.
  rewrite find_map_same_test.
  - rewrite Hsel. simpl. unfold str_eq.
    by rewrite bool_decide_eq_true_2.
  - intros c. cbv beta. by destruct (str_eq (csv_id c) csvId) eqn:E.
Qed.

Lemma take_all_rows (n : nat) (data : list (list jsstring)) :
  Forall (fun row => (length row <= n)%nat) data -> map (take n) data = data.
Proof.
  induction 1 as [|row data Hrow _ IH]; simpl; [done|].
  by rewrite take_ge, IH.
Qed.

(** C1, as the code has it: after [saveTable id H R] on a table the file
    has, the effective table is [H] and every row of [R] cut to the number
    of original headers (so exactly [(H, R)] when none is longer), and the
    original headers and rows are as they were. *)
Theorem saveTable_effective (w : World) (csvId : jsstring)
    (H : list jsstring) (R : list (list jsstring)) (csv : CsvFile) :
  ResultsPanel.selectedCsv (App.currentFile (app w)) csvId = Some csv ->
  let n := length (csv_headers csv) in
  let w' := saveTable csvId H R w in
  effectiveTable w' csvId = Some (take n H, map (take n) R) /\
  ((length H <= n)%nat -> Forall (fun row => (length row <= n)%nat) R ->
   effectiveTable w' csvId = Some (H, R)) /\
  (csv_headers <$> ResultsPanel.selectedCsv (App.currentFile (app w')) csvId)
  = Some (csv_headers csv) /\
  (csv_data <$> ResultsPanel.selectedCsv (App.currentFile (app w')) csvId)
  = Some (csv_data csv).
Proof.
  intros Hsel n w'.
  assert (Hsel' : ResultsPanel.selectedCsv (App.currentFile (app w')) csvId
                  = Some (App.overridden csv H R))
    by (apply selectedCsv_saveCsv, Hsel).
  assert (Heff : effectiveTable w' csvId = Some (take n H, map (take n) R))
    by (unfold effectiveTable; by rewrite Hsel').
  split; [exact Heff|]. split; [|by rewrite Hsel'].
  intros HH HR. rewrite Heff.
  by rewrite (take_ge H n HH), (take_all_rows n R HR).
Qed.

Lemma saveTable_effective_witness :
  let w' := saveTable (lit "csv-0") [lit "Who"; lit "Years"]
                      [[lit "Ann"; lit "31"]; [lit "Bob"]] Sample.world in
  effectiveTable w' (lit "csv-0")
  = Some (take 2 [lit "Who"; lit "Years"],
          map (take 2) [[lit "Ann"; lit "31"]; [lit "Bob"]]) /\
  ((2 <= 2)%nat ->
   Forall (fun row : list jsstring => (length row <= 2)%nat)
          [[lit "Ann"; lit "31"]; [lit "Bob"]] ->
   effectiveTable w' (lit "csv-0")
   = Some ([lit "Who"; lit "Years"], [[lit "Ann"; lit "31"]; [lit "Bob"]])) /\
  (csv_headers <$> ResultsPanel.selectedCsv (App.currentFile (app w')) (lit "csv-0"))
  = Some [lit "Name"; lit "Age"] /\
  (csv_data <$> ResultsPanel.selectedCsv (App.currentFile (app w')) (lit "csv-0"))
  = Some [[lit "Ann"; lit "30"]].
Proof.
  apply (saveTable_effective Sample.world (lit "csv-0") [lit "Who"; lit "Years"]
           [[lit "Ann"; lit "31"]; [lit "Bob"]] Sample.table0).
  reflexivity.
Defined.

(** C1 as worded fails on a table wider than the original: the third
    header and the third cell are cut off. *)
Lemma saveTable_cuts_extra_columns :
  let H := [lit "Who"; lit "Years"; lit "City"] in
  let R := [[lit "Ann"; lit "31"; lit "Oslo"]] in
  effectiveTable (saveTable (lit "csv-0") H R Sample.world) (lit "csv-0")
  = Some ([lit "Who"; lit "Years"], [[lit "Ann"; lit "31"]]) /\
  effectiveTable (saveTable (lit "csv-0") H R Sample.world) (lit "csv-0")
  <> Some (H, R).
Proof. split; [reflexivity | discriminate]. Qed.

(** A saved text that is not empty is the effective text. *)
Lemma saveText_effective (w : World) (md : MarkdownFile) (c : N) (content : jsstring) :
  App.currentFile (app w) ≫= markdown = Some md ->
  effectiveText (saveText (c :: content) w) = Some (c :: content).
Proof.
  intros Hmd. unfold effectiveText, saveText. cbn.
  destruct (App.currentFile (app w)) as [f|]; [|done]. cbn in *.
  by rewrite Hmd.
Qed.

(** C3 (the code departs from it): after [saveText] of the empty string
    the override is the empty string, yet the effective text is still the
    original one, [editedContent || content] taking the empty override
    for a missing one. *)
Theorem saveText_empty_override_is_ignored (w : World) (md : MarkdownFile) :
  App.currentFile (app w) ≫= markdown = Some md ->
  let w' := saveText [] w in
  (editedContent <$> (App.currentFile (app w') ≫= markdown)) = Some (Some []) /\
  effectiveText w' = Some (md_content md).
Proof.
  intros Hmd. unfold effectiveText, saveText. cbn.
  destruct (App.currentFile (app w)) as [f|]; [|done]. cbn in *.
  by rewrite Hmd.
Qed.

Lemma saveText_empty_override_is_ignored_witness :
  let w' := saveText [] Sample.world in
  (editedContent <$> (App.currentFile (app w') ≫= markdown)) = Some (Some []) /\
  effectiveText w' = Some (lit "# Report").
Proof.
  apply (saveText_empty_override_is_ignored Sample.world
           (mkMarkdownFile (lit "# Report") (lit "report.md") None)).
  reflexivity.
Defined.

End EditStateFacts.

Section TransformFacts.
Import Types Api EditState.

(** Whatever callback the panel is handed: when it throws on the shown
    table, the panel's state is as before, the viewer shows the error, and
    the state above the panel is what the callback left. *)
Lemma transformTableOp_callback_throws
    (callback : jsstring -> list (list jsstring) -> Above -> Above * outcome unit)
    (w : World) (csvId : jsstring) (csv : CsvFile) (e : Thrown) :
  ResultsPanel.selectedCsv (App.currentFile (app w)) csvId = Some csv ->
  snd (callback (csv_id csv) (CsvViewer.displayData csv) (above w)) = Threw e ->
  let w' := fst (transformTableOp (Some callback) csvId w) in
  panel w' = panel w /\
  CsvViewer.transformError (viewer w') = Some (CsvViewer.shown_error e) /\
  CsvViewer.isTransforming (viewer w') = false /\
  above w' = fst (callback (csv_id csv) (CsvViewer.displayData csv) (above w)).
Proof.
  intros Hsel Hcb. unfold transformTableOp. rewrite Hsel.
  unfold CsvViewer.handleTransform.
  cbn [fst snd]. fold (CsvViewer.displayData csv).
  destruct (callback (csv_id csv) (CsvViewer.displayData csv) (above w))
    as [[app' log'] r].
  cbn [snd] in Hcb. subst r. by cbn.
Qed.

(** The same under the earlier panel, where the viewer is handed
    [handleTransformCsv]: the version is not moved. *)
Lemma transformClick_callback_throws {P : Type}
    (callback : jsstring -> list (list jsstring) -> P -> P * outcome unit)
    (csv : CsvFile)
    (st : CsvViewer.ViewerState * (ResultsPanel.PanelState * P)) (e : Thrown) :
  snd (callback (csv_id csv) (CsvViewer.displayData csv) (snd (snd st))) = Threw e ->
  let st' := fst (EarlierPanel.transformClick (Some callback) csv st) in
  fst (snd st') = fst (snd st) /\
  CsvViewer.transformError (fst st') = Some (CsvViewer.shown_error e) /\
  CsvViewer.isTransforming (fst st') = false /\
  snd (snd st')
  = fst (callback (csv_id csv) (CsvViewer.displayData csv) (snd (snd st))).
Proof.
  intros Hcb. unfold EarlierPanel.transformClick, CsvViewer.handleTransform,
    ResultsPanel.handleTransformCsv.
  cbn [fst snd]. fold (CsvViewer.displayData csv).
  destruct (callback (csv_id csv) (CsvViewer.displayData csv) (snd (snd st)))
    as [p r].
  cbn [snd] in Hcb. subst r. by cbn.
Qed.

(** The modelled [transformTable] leaves the application state alone when
    it throws. *)
Lemma transformTable_throws_pure (srv : Server) (csvId : jsstring)
    (data : list (list jsstring)) (st : Above) (e : Thrown) :
  snd (transformTable srv csvId data st) = Threw e ->
  fst (fst (transformTable srv csvId data st)) = fst st.
Proof.
  unfold transformTable. destruct st as [a log].
  destruct (list_find _ _) as [[tableIndex csv]|]; [|done].
  unfold transform2tidy, request.
  by destruct (srv_transform2tidy srv data tableIndex).
Qed.

(** C7: when [transformTable] fails on a table of the file, whatever its
    override, the application state (the file with every override) and
    the panel's state (the version counter) are what they were before the
    call, and the viewer holds the error for display; so it is under the
    current panel, which hands the callback to the viewer as it is, and
    under the earlier panel, which hands the viewer its
    [handleTransformCsv]. *)
Theorem transformTable_failure_keeps_state (srv : Server) (w : World)
    (csvId : jsstring) (csv : CsvFile) (e : Thrown) :
  ResultsPanel.selectedCsv (App.currentFile (app w)) csvId = Some csv ->
  snd (transformTable srv (csv_id csv) (CsvViewer.displayData csv) (above w))
  = Threw e ->
  let w' := fst (transformTableOp (Some (transformTable srv)) csvId w) in
  let earlier :=
    fst (EarlierPanel.transformClick (Some (transformTable srv)) csv
           (viewer w, (panel w, above w))) in
  (app w' = app w /\
   panel w' = panel w /\
   effectiveTable w' csvId = effectiveTable w csvId /\
   CsvViewer.transformError (viewer w') = Some (CsvViewer.shown_error e)) /\
  (fst (snd (snd earlier)) = app w /\
   fst (snd earlier) = panel w /\
   CsvViewer.transformError (fst earlier) = Some (CsvViewer.shown_error e)).
Proof.
  intros Hsel Hfail w' earlier.
  pose proof (transformTable_throws_pure srv _ _ (above w) e Hfail) as Hpure.
  split.
  - destruct (transformTableOp_callback_throws (transformTable srv) w csvId csv e
                Hsel Hfail) as (Hpanel & Herr & _ & Habove).
    fold w' in Hpanel, Herr, Habove.
    assert (Happ : app w' = app w).
    { change (app w') with (fst (above w')). by rewrite Habove. }
    repeat split; [done | done | | done].
    unfold effectiveTable. by rewrite Happ.
  - destruct (transformClick_callback_throws (transformTable srv) csv
                (viewer w, (panel w, above w)) e Hfail)
      as (Hpanel & Herr & _ & Habove).
    fold earlier in Hpanel, Herr, Habove.
    repeat split; [|done..]. by rewrite Habove.
Qed.

Lemma transformTable_failure_keeps_state_witness :
  let w' :=
    fst (transformTableOp (Some (transformTable Sample.server)) (lit "csv-0")
           Sample.edited_world) in
  let earlier :=
    fst (EarlierPanel.transformClick (Some (transformTable Sample.server))
           Sample.edited_table0
           (viewer Sample.edited_world,
            (panel Sample.edited_world, above Sample.edited_world))) in
  (app w' = app Sample.edited_world /\
   panel w' = panel Sample.edited_world /\
   effectiveTable w' (lit "csv-0") = effectiveTable Sample.edited_world (lit "csv-0") /\
   CsvViewer.transformError (viewer w')
   = Some (CsvViewer.shown_error (ErrorObj (lit "Transform failed: Bad Gateway")))) /\
  (fst (snd (snd earlier)) = app Sample.edited_world /\
   fst (snd earlier) = panel Sample.edited_world /\
   CsvViewer.transformError (fst earlier)
   = Some (CsvViewer.shown_error (ErrorObj (lit "Transform failed: Bad Gateway")))).
Proof.
  apply (transformTable_failure_keeps_state Sample.server Sample.edited_world
           (lit "csv-0") Sample.edited_table0
           (ErrorObj (lit "Transform failed: Bad Gateway")));
    reflexivity.
Defined.

Lemma step_csvVersion (onTransformCsv : TransformCallback) (w : World) (op : Op) :
  ResultsPanel.csvVersion (panel (step onTransformCsv w op))
  = (ResultsPanel.csvVersion (panel w) + bumps op)%nat.
Proof.
  destruct op as [content|csvId headers data|csvId]; cbn [step bumps].
  - cbn. lia.
  - cbn. lia.
  - unfold transformTableOp.
    destruct (ResultsPanel.selectedCsv _ _) as [csv|]; [|cbn; lia].
    destruct (CsvViewer.handleTransform _ _ _) as [[viewer' [app' log']] r].
    cbn. lia.
Qed.

Lemma earlier_step_csvVersion {P : Type} (props : EarlierPanel.Props P)
    (st : CsvViewer.ViewerState * (ResultsPanel.PanelState * P))
    (op : EarlierPanel.Op) :
  ResultsPanel.csvVersion (fst (snd (EarlierPanel.step props st op)))
  = (ResultsPanel.csvVersion (fst (snd st)) + EarlierPanel.bumps props st op)%nat.
Proof.
  destruct op as [content|csvId data|csv]; cbn [EarlierPanel.step EarlierPanel.bumps].
  - cbn. lia.
  - cbn. lia.
  - unfold EarlierPanel.transformClick, CsvViewer.handleTransform,
      ResultsPanel.handleTransformCsv.
    cbn [fst snd]. fold (CsvViewer.displayData csv).
    destruct (EarlierPanel.onTransformCsv props) as [callback|]; [|cbn; lia].
    destruct (callback (csv_id csv) (CsvViewer.displayData csv) (snd (snd st)))
      as [p [[]|e|]]; cbn; lia.
Qed.

(** C8, as the code has it: over every sequence of operations the
    counter [csvVersion] never decreases and [saveText] leaves it as it
    is.  Under the current panel it grows by one on every [saveTable] and
    on nothing else, a transform being handed to the viewer without the
    panel taking part.  Under the earlier panel it grows by one on every
    [saveTable] and on every [transformTable] whose callback is there and
    returns, and stays as it is on a failed transform. *)
Theorem csvVersion_counts_table_edits :
  (forall (onTransformCsv : TransformCallback) (w : World) (op : Op),
      ResultsPanel.csvVersion (panel (step onTransformCsv w op))
      = (ResultsPanel.csvVersion (panel w) + bumps op)%nat) /\
  (forall (onTransformCsv : TransformCallback) (ops : list Op) (w : World),
      (ResultsPanel.csvVersion (panel w)
       <= ResultsPanel.csvVersion (panel (run onTransformCsv ops w)))%nat) /\
  (forall (P : Type) (props : EarlierPanel.Props P)
          (st : CsvViewer.ViewerState * (ResultsPanel.PanelState * P))
          (op : EarlierPanel.Op),
      ResultsPanel.csvVersion (fst (snd (EarlierPanel.step props st op)))
      = (ResultsPanel.csvVersion (fst (snd st))
         + EarlierPanel.bumps props st op)%nat) /\
  (forall (P : Type) (props : EarlierPanel.Props P) (ops : list EarlierPanel.Op)
          (st : CsvViewer.ViewerState * (ResultsPanel.PanelState * P)),
      (ResultsPanel.csvVersion (fst (snd st))
       <= ResultsPanel.csvVersion (fst (snd (EarlierPanel.run props ops st))))%nat).
Proof.
  split; [intros; apply step_csvVersion|].
  split.
  { intros onTransformCsv ops. unfold run.
    induction ops as [|op ops IH]; intros w; simpl; [done|].
    etransitivity; [|apply IH]. rewrite step_csvVersion. lia. }
  split; [intros; apply earlier_step_csvVersion|].
  intros P props ops. unfold EarlierPanel.run.
  induction ops as [|op ops IH]; intros st; simpl; [done|].
  etransitivity; [|apply IH]. rewrite earlier_step_csvVersion. lia.
Qed.

(** C8 as worded fails on [saveText], and under the current panel on a
    transform that returns: the counter is not moved. *)
Lemma csvVersion_not_moved_by_text_or_transform :
  (ResultsPanel.csvVersion (panel (saveText (lit "# Edited") Sample.world)) = 0%nat /\
   ResultsPanel.csvVersion (panel (saveText (lit "# Edited") Sample.world))
   <> S (ResultsPanel.csvVersion (panel Sample.world))) /\
  (snd (transformTableOp (Some (transformTable SampleTidy.server)) (lit "csv-0")
          Sample.world) = Returned tt /\
   ResultsPanel.csvVersion
     (panel (fst (transformTableOp (Some (transformTable SampleTidy.server))
                    (lit "csv-0") Sample.world))) = 0%nat /\
   ResultsPanel.csvVersion
     (panel (fst (transformTableOp (Some (transformTable SampleTidy.server))
                    (lit "csv-0") Sample.world)))
   <> S (ResultsPanel.csvVersion (panel Sample.world))).
Proof. repeat split; try reflexivity; discriminate. Qed.

End TransformFacts.

(** ** Parser *)

Section ParserFacts.
Import Parser.

(** The indexed [for] loop visits the characters from [i] on, in order. *)
Lemma parseRow_for_fold (n i : nat) (line : jsstring) (st : RowState) :
  parseRow_for n i line st = fold_left parseRow_body (take n (drop i line)) st.
Proof.
  revert i st. induction n as [|n IH]; intros i st; simpl; [done|].
  destruct (line !! i) as [char|] eqn:Hi.
  - rewrite (drop_S line char i Hi). simpl. apply IH.
  - apply lookup_ge_None in Hi. by rewrite drop_ge.
Qed.

Lemma parseRow_fold (line : jsstring) :
  parseRow line =
  let st := fold_left parseRow_body line (mkRow [] [] false) in
  result st ++ [trim (current st)].
Proof.
  unfold parseRow. rewrite parseRow_for_fold, drop_0.
  by rewrite firstn_all.
Qed.

Lemma scan_fields_fold (cs : jsstring) (st : RowState) :
  (let st' := fold_left parseRow_body cs st in
   result st' ++ [trim (current st')]) =
  result st ++ scan_fields (inQuotes st) (current st) cs.
Proof.
  revert st. induction cs as [|c cs IH]; intros st; simpl; [done|].
  simpl in IH. rewrite IH. unfold parseRow_body.
  destruct (c =? QUOTE); simpl; [done|].
  destruct ((c =? COMMA) && negb (inQuotes st)); simpl; [|done].
  by rewrite <- app_assoc.
Qed.

Lemma parseRow_scan (line : jsstring) :
  parseRow line = scan_fields false [] line.
Proof. rewrite parseRow_fold. apply (scan_fields_fold line (mkRow [] [] false)). Qed.

(** The examples of the specification: a header row and one data row;
    fields are trimmed, quoted or not. *)
Example parseCsvContent_header_and_row :
  parseCsvContent (lit "a,b,c" ++ [LF] ++ lit "1,2,3")
  = mkParsed [lit "a"; lit "b"; lit "c"] [[lit "1"; lit "2"; lit "3"]].
Proof. reflexivity. Qed.

Example parseRow_trims_fields :
  parseRow ([QUOTE] ++ lit " x " ++ [QUOTE] ++ lit ", y") = [lit "x"; lit "y"].
Proof. reflexivity. Qed.

Example table_filename_last_segment :
  Api.table_filename (lit "outputs/tables/table_1.csv") = lit "table_1.csv" /\
  Api.table_filename (lit "outputs/tables/") = lit "outputs/tables/".
Proof. split; reflexivity. Qed.

(** A comma met outside quotes ends the field. *)
Lemma scan_fields_comma (buf rest : jsstring) :
  scan_fields false buf (COMMA :: rest) = trim buf :: scan_fields false [] rest.
Proof. reflexivity. Qed.

(** Inside quotes every character but the quote, commas included, is
    field content. *)
Lemma scan_fields_quoted (buf body rest : jsstring) :
  Forall (fun c => c <> QUOTE) body ->
  scan_fields true buf (body ++ rest) = scan_fields true (buf ++ body) rest.
Proof.
  intros H. revert buf. induction H as [|c body Hc _ IH]; intros buf; simpl.
  - by rewrite app_nil_r.
  - apply N.eqb_neq in Hc. rewrite Hc, andb_false_r.
    rewrite IH. by rewrite <- app_assoc.
Qed.

(** Outside quotes every character but the quote and the comma is field
    content. *)
Lemma scan_fields_plain (inq : bool) (buf body rest : jsstring) :
  Forall (fun c => c <> QUOTE /\ c <> COMMA) body ->
  scan_fields inq buf (body ++ rest) = scan_fields inq (buf ++ body) rest.
Proof.
  intros H. revert buf. induction H as [|c body [Hq Hc] _ IH]; intros buf; simpl.
  - by rewrite app_nil_r.
  - apply N.eqb_neq in Hq, Hc. rewrite Hq, Hc. simpl.
    rewrite IH. by rewrite <- app_assoc.
Qed.

Lemma parseRow_body_no_quote (st : RowState) (char : N) :
  Forall no_quote (result st) -> no_quote (current st) ->
  Forall no_quote (result (parseRow_body st char)) /\
  no_quote (current (parseRow_body st char)).
Proof.
  intros Hr Hc. unfold parseRow_body.
  destruct (char =? QUOTE) eqn:Hq; simpl; [done|].
  destruct ((char =? COMMA) && negb (inQuotes st)); simpl.
  - split; [|constructor].
    apply Forall_app. split; [done|].
    constructor; [|constructor]. by apply trim_Forall.
  - split; [done|].
    apply Forall_app. split; [done|].
    constructor; [|constructor]. by apply N.eqb_neq.
Qed.

Lemma fold_no_quote (cs : jsstring) (st : RowState) :
  Forall no_quote (result st) -> no_quote (current st) ->
  Forall no_quote (result (fold_left parseRow_body cs st)) /\
  no_quote (current (fold_left parseRow_body cs st)).
Proof.
  revert st. induction cs as [|c cs IH]; intros st Hr Hc; simpl; [done|].
  destruct (parseRow_body_no_quote st c Hr Hc) as [Hr' Hc'].
  by apply IH.
Qed.

Lemma parseRow_no_quote (line : jsstring) : Forall no_quote (parseRow line).
Proof.
  rewrite parseRow_fold. simpl.
  destruct (fold_no_quote line (mkRow [] [] false)) as [Hr Hc];
    [constructor | constructor |].
  apply Forall_app. split; [done|].
  constructor; [|constructor]. by apply trim_Forall.
Qed.

(** Two quotes in a row toggle the quote state twice. *)
Lemma parseRow_body_quote_twice (st : RowState) :
  parseRow_body (parseRow_body st QUOTE) QUOTE = st.
Proof. destruct st as [r c q]. unfold parseRow_body. simpl. by rewrite negb_involutive. Qed.

End ParserFacts.

(** C9: field splitting is the left-to-right scan with a boolean quote
    state of the specification ([scan_fields]: a comma outside quotes ends
    a field, a comma inside quotes is content), on every line; the line
    [a,"b,c",d] yields exactly the three fields [a], [b,c] and [d]. *)
Theorem parseRow_quoted_comma :
  (forall line : jsstring,
      Parser.parseRow line = Parser.scan_fields false [] line) /\
  Parser.parseRow Sample.quoted_line = [lit "a"; lit "b,c"; lit "d"].
Proof.
  split; [apply parseRow_scan | reflexivity].
Qed.

(** C10: no field of the parser's output, header or data, contains a
    double quote: the quoted text ["b,c"] parses to the single field [b,c],
    and a doubled quote anywhere in a line leaves its fields as they are
    without it. *)
Theorem parser_fields_quote_free :
  (forall csvContent : jsstring,
      Forall (Forall Parser.no_quote)
        (Parser.headers (Parser.parseCsvContent csvContent)
           :: Parser.data (Parser.parseCsvContent csvContent))) /\
  Parser.parseRow ([QUOTE] ++ lit "b,c" ++ [QUOTE]) = [lit "b,c"] /\
  (forall pre post : jsstring,
      Parser.parseRow (pre ++ QUOTE :: QUOTE :: post) =
      Parser.parseRow (pre ++ post)).
Proof.
  split; [|split].
  - intros csvContent. unfold Parser.parseCsvContent.
    destruct (length (split (N.eqb LF) (trim csvContent)) =? 0)%nat; simpl.
    + repeat constructor.
    + constructor; [apply parseRow_no_quote|].
      apply Forall_map, Forall_forall. intros line _. apply parseRow_no_quote.
  - reflexivity.
  - intros pre post. rewrite !parseRow_fold. simpl.
    rewrite !fold_left_app. simpl.
    by rewrite parseRow_body_quote_twice.
Qed.

(** C2 (the code departs from it): on an empty or whitespace-only input
    [split] yields one empty line, the guard on [lines.length] does not
    fire, and the header row is the single empty field. *)
Theorem parseCsvContent_whitespace (csvContent : jsstring) :
  forallb is_whitespace csvContent = true ->
  Parser.parseCsvContent csvContent = Parser.mkParsed [[]] [].
Proof.
  intros H. unfold Parser.parseCsvContent. by rewrite (trim_whitespace _ H).
Qed.

Lemma parseCsvContent_whitespace_witness :
  forallb is_whitespace [] = true /\
  Parser.parseCsvContent [] = Parser.mkParsed [[]] [].
Proof.
  split; [reflexivity | apply (parseCsvContent_whitespace []); reflexivity].
Defined.

(** * Further properties of the code *)

(** ** Trimming *)

Lemma trimStart_head (s : jsstring) (a : N) :
  head (trimStart s) = Some a -> is_whitespace a = false.
Proof.
  induction s as [|c s IH]; simpl; [done|].
  destruct (is_whitespace c) eqn:Hc; [done|].
  simpl. by intros [= <-].
Qed.

Lemma trimStart_split (s : jsstring) :
  exists p, s = p ++ trimStart s.
Proof.
  induction s as [|c s [p IH]]; simpl; [by exists []|].
  destruct (is_whitespace c).
  - exists (c :: p). simpl. by f_equal.
  - by exists [].
Qed.

Lemma trimEnd_split (s : jsstring) :
  exists q, s = trimEnd s ++ q.
Proof.
  destruct (trimStart_split (rev s)) as [p Hp].
  exists (rev p). unfold trimEnd.
  rewrite <- rev_app_distr, <- Hp. by rewrite rev_involutive.
Qed.

Lemma last_rev (s : jsstring) : last (rev s) = head s.
Proof. destruct s as [|a s]; simpl; [done | apply last_snoc]. Qed.

Lemma head_rev (s : jsstring) : head (rev s) = last s.
Proof. rewrite <- (rev_involutive s) at 2. by rewrite last_rev. Qed.

Lemma trimStart_solid (s : jsstring) (a : N) :
  head s = Some a -> is_whitespace a = false -> trimStart s = s.
Proof. destruct s as [|c s]; simpl; [done|]. by intros [= ->] ->. Qed.

Lemma trimEnd_solid (s : jsstring) (z : N) :
  last s = Some z -> is_whitespace z = false -> trimEnd s = s.
Proof.
  intros Hz Hws. unfold trimEnd.
  rewrite (trimStart_solid (rev s) z); [apply rev_involutive | | done].
  by rewrite head_rev.
Qed.

(** A string without whitespace at either end is left alone by [trim]. *)
Lemma trim_trimmed (s : jsstring) : is_trimmed s = true -> trim s = s.
Proof.
  unfold is_trimmed, trim. intros H.
  destruct (head s) as [a|] eqn:Ha.
  - destruct (last s) as [z|] eqn:Hz.
    + apply andb_prop in H as [H1%negb_true_iff H2%negb_true_iff].
      rewrite (trimStart_solid s a Ha H1). by apply (trimEnd_solid s z).
    + apply last_None in Hz. by subst s.
  - destruct s; [done | discriminate].
Qed.

(** [trim] leaves no whitespace at either end. *)
Lemma trim_is_trimmed (s : jsstring) : is_trimmed (trim s) = true.
Proof.
  unfold is_trimmed.
  destruct (head (trim s)) as [a|] eqn:Ha; [|done].
  destruct (last (trim s)) as [z|] eqn:Hz; [|done].
  apply andb_true_intro. split; apply negb_true_iff.
  - destruct (trimEnd_split (trimStart s)) as [q Hq].
    fold (trim s) in Hq.
    apply (trimStart_head s a). rewrite Hq.
    destruct (trim s) as [|b t]; [done|]. exact Ha.
  - unfold trim, trimEnd in Hz. rewrite last_rev in Hz.
    by apply trimStart_head in Hz.
Qed.

Lemma trim_idempotent (s : jsstring) : trim (trim s) = trim s.
Proof. apply trim_trimmed, trim_is_trimmed. Qed.

Lemma whitespace_not_special (c : N) :
  is_whitespace c = true -> (c =? QUOTE) = false /\ (c =? COMMA) = false.
Proof.
  intros H. split.
  - destruct (c =? QUOTE) eqn:E; [|done]. apply N.eqb_eq in E. by subst c.
  - destruct (c =? COMMA) eqn:E; [|done]. apply N.eqb_eq in E. by subst c.
Qed.

Lemma trimStart_snoc_whitespace (s : jsstring) (c : N) :
  is_whitespace c = true ->
  trimStart (s ++ [c]) = match trimStart s with [] => [] | t => t ++ [c] end.
Proof.
  intros Hc. induction s as [|a s IH]; simpl; [by rewrite Hc|].
  destruct (is_whitespace a); [exact IH | done].
Qed.

Lemma trimEnd_snoc_whitespace (s : jsstring) (c : N) :
  is_whitespace c = true -> trimEnd (s ++ [c]) = trimEnd s.
Proof.
  intros Hc. unfold trimEnd. rewrite rev_app_distr. simpl. by rewrite Hc.
Qed.

Lemma trim_snoc_whitespace (s : jsstring) (c : N) :
  is_whitespace c = true -> trim (s ++ [c]) = trim s.
Proof.
  intros Hc. unfold trim. rewrite (trimStart_snoc_whitespace s c Hc).
  destruct (trimStart s) as [|a t]; [done|].
  apply (trimEnd_snoc_whitespace (a :: t) c Hc).
Qed.

(** ** More on the parser *)

Section ParserExtras.
Import Parser.

Lemma scan_fields_trimmed (inq : bool) (buf cs : jsstring) :
  Forall (fun f => trim f = f) (scan_fields inq buf cs).
Proof.
  revert inq buf. induction cs as [|c cs IH]; intros inq buf; simpl.
  - constructor; [apply trim_idempotent | constructor].
  - destruct (c =? QUOTE); [apply IH|].
    destruct ((c =? COMMA) && negb inq); [|apply IH].
    constructor; [apply trim_idempotent | apply IH].
Qed.

Lemma scan_fields_nonempty (inq : bool) (buf cs : jsstring) :
  scan_fields inq buf cs <> [].
Proof.
  revert inq buf. induction cs as [|c cs IH]; intros inq buf; simpl; [done|].
  destruct (c =? QUOTE); [apply IH|].
  destruct ((c =? COMMA) && negb inq); [done | apply IH].
Qed.

Lemma split_length (c : N) (s : jsstring) :
  length (split (N.eqb c) s) = S (count_char c s).
Proof.
  induction s as [|x s IH]; simpl; [done|].
  rewrite (N.eqb_sym c x).
  destruct (x =? c); simpl; [by rewrite IH|].
  destruct (split (N.eqb c) s) as [|piece pieces]; [done | exact IH].
Qed.

(** X3: Every field the parser emits, header or data, is trimmed: [trim]
    leaves it as it is. *)
Theorem parser_fields_trimmed (csvContent : jsstring) :
  Forall (Forall (fun f => trim f = f))
         (headers (parseCsvContent csvContent)
            :: data (parseCsvContent csvContent)).
Proof.
  unfold parseCsvContent.
  destruct (length (split (N.eqb LF) (trim csvContent)) =? 0)%nat; simpl.
  - repeat constructor.
  - constructor.
    + rewrite parseRow_scan. apply scan_fields_trimmed.
    + apply Forall_map, Forall_forall. intros line _.
      rewrite parseRow_scan. apply scan_fields_trimmed.
Qed.

(** X4: The shape of the parser's output, on every input: the header row has
    at least one field, so has every data row, and there is one data row
    per line feed of the trimmed input. *)
Theorem parser_output_shape (csvContent : jsstring) :
  headers (parseCsvContent csvContent) <> [] /\
  Forall (fun row => row <> []) (data (parseCsvContent csvContent)) /\
  length (data (parseCsvContent csvContent))
  = count_char LF (trim csvContent).
Proof.
  unfold parseCsvContent.
  pose proof (split_length LF (trim csvContent)) as Hlen.
  destruct (split (N.eqb LF) (trim csvContent)) as [|line lines];
    [discriminate|].
  simpl in *. split; [|split].
  - rewrite parseRow_scan. apply scan_fields_nonempty.
  - apply Forall_map, Forall_forall. intros l _.
    rewrite parseRow_scan. apply scan_fields_nonempty.
  - rewrite length_map. lia.
Qed.

Lemma scan_fields_length_no_quote (buf cs : jsstring) :
  no_quote cs ->
  length (scan_fields false buf cs) = S (count_char COMMA cs).
Proof.
  intros H. revert buf. induction H as [|c cs Hc _ IH]; intros buf; simpl; [done|].
  apply N.eqb_neq in Hc. rewrite Hc, andb_true_r.
  destruct (c =? COMMA); simpl; by rewrite IH.
Qed.

(** X5: A line without quotes has one field more than it has commas: rows are
    neither padded nor cut to the header's width. *)
Theorem parseRow_field_count (line : jsstring) :
  no_quote line ->
  length (parseRow line) = S (count_char COMMA line).
Proof. intros H. rewrite parseRow_scan. by apply scan_fields_length_no_quote. Qed.

Lemma parseRow_field_count_witness :
  no_quote (lit "a,,b, c") /\
  length (parseRow (lit "a,,b, c")) = S (count_char COMMA (lit "a,,b, c")).
Proof.
  assert (H : no_quote (lit "a,,b, c")) by (repeat constructor; discriminate).
  split; [exact H | exact (parseRow_field_count (lit "a,,b, c") H)].
Defined.

(** X6: Whitespace at the end of a line, such as the carriage return of a
    Windows line ending, does not change the fields of the line. *)
Theorem parseRow_trailing_whitespace (line : jsstring) (c : N) :
  is_whitespace c = true ->
  parseRow (line ++ [c]) = parseRow line.
Proof.
  intros Hc. rewrite !parseRow_fold. cbv zeta. rewrite fold_left_app. simpl.
  destruct (whitespace_not_special c Hc) as [Hq Hcomma].
  unfold parseRow_body at 1 3. rewrite Hq, Hcomma. simpl.
  by rewrite (trim_snoc_whitespace _ c Hc).
Qed.

Lemma parseRow_trailing_whitespace_witness :
  is_whitespace 13 = true /\
  parseRow (lit "a,b" ++ [13]) = parseRow (lit "a,b").
Proof.
  split; [reflexivity | apply (parseRow_trailing_whitespace (lit "a,b") 13); reflexivity].
Defined.

End ParserExtras.

(** ** Export and import *)

Section RoundTrip.
Import Parser.

Lemma bare_field_chars (c : jsstring) :
  bare_field c = true ->
  Forall (fun x => x <> QUOTE /\ x <> COMMA) c /\ trim c = c.
Proof.
  unfold bare_field. intros [Hchars Htrim]%andb_prop.
  split; [|by apply trim_trimmed].
  apply Forall_forall. intros x Hx%list_elem_of_In.
  rewrite forallb_forall in Hchars. specialize (Hchars x Hx).
  apply andb_prop in Hchars as [H1%negb_true_iff H2%negb_true_iff].
  split; by apply N.eqb_neq.
Qed.

Lemma scan_fields_join (row : list jsstring) :
  row <> [] -> forallb bare_field row = true ->
  scan_fields false [] (join [COMMA] row) = row.
Proof.
  induction row as [|c row IH]; [done|]. intros _ Hrow.
  simpl in Hrow. apply andb_prop in Hrow as [Hc Hrow].
  destruct (bare_field_chars c Hc) as [Hchars Htrim].
  destruct row as [|c2 row].
  - simpl. rewrite <- (app_nil_r c) at 1.
    rewrite (scan_fields_plain false [] c [] Hchars). simpl. by rewrite Htrim.
  - change (join [COMMA] (c :: c2 :: row))
      with (c ++ COMMA :: join [COMMA] (c2 :: row)).
    rewrite (scan_fields_plain false [] c _ Hchars). simpl app.
    rewrite scan_fields_comma, Htrim. f_equal. by apply IH.
Qed.

(** X1: Writing a row with commas between its cells and parsing the line
    gives the row back, when the row is not empty and no cell holds a
    comma, a quote, or whitespace at either end. *)
Theorem parseRow_join (row : list jsstring) :
  nonempty row = true -> forallb bare_field row = true ->
  parseRow (join [COMMA] row) = row.
Proof.
  intros Hne Hrow. rewrite parseRow_scan. apply scan_fields_join; [|done].
  by destruct row.
Qed.

Lemma parseRow_join_witness :
  nonempty [lit "Ann Lee"; []; lit "30"] = true /\
  forallb bare_field [lit "Ann Lee"; []; lit "30"] = true /\
  parseRow (join [COMMA] [lit "Ann Lee"; []; lit "30"])
  = [lit "Ann Lee"; []; lit "30"].
Proof.
  split; [reflexivity|]. split; [reflexivity|].
  apply (parseRow_join [lit "Ann Lee"; []; lit "30"]); reflexivity.
Defined.

Lemma count_char_app (c : N) (s t : jsstring) :
  count_char c (s ++ t) = (count_char c s + count_char c t)%nat.
Proof.
  induction s as [|x s IH]; simpl; [done|].
  destruct (x =? c); simpl; by rewrite IH.
Qed.

Lemma count_char_join_commas (row : list jsstring) :
  row <> [] ->
  S (count_char COMMA (join [COMMA] row))
  = (length row + sum_list (map (count_char COMMA) row))%nat.
Proof.
  induction row as [|c row IH]; [done|]. intros _.
  destruct row as [|c2 row]; [simpl; lia|].
  change (join [COMMA] (c :: c2 :: row))
    with (c ++ COMMA :: join [COMMA] (c2 :: row)).
  rewrite count_char_app.
  change (count_char COMMA (COMMA :: join [COMMA] (c2 :: row)))
    with (S (count_char COMMA (join [COMMA] (c2 :: row)))).
  specialize (IH ltac:(done)). simpl in *. lia.
Qed.

Lemma no_quote_join (row : list jsstring) :
  Forall no_quote row -> no_quote (join [COMMA] row).
Proof.
  induction 1 as [|c row Hc Hrow IH]; [constructor|].
  destruct row as [|c2 row]; [done|].
  change (join [COMMA] (c :: c2 :: row))
    with (c ++ COMMA :: join [COMMA] (c2 :: row)).
  apply Forall_app. split; [done|]. constructor; [discriminate | exact IH].
Qed.

(** X7: The export does not quote: a written row whose cells hold commas (and
    no quotes) parses into as many fields more as there are commas in its
    cells. *)
Theorem parseRow_join_field_count (row : list jsstring) :
  nonempty row = true -> Forall no_quote row ->
  length (parseRow (join [COMMA] row))
  = (length row + sum_list (map (count_char COMMA) row))%nat.
Proof.
  intros Hne Hq.
  rewrite parseRow_scan.
  rewrite (scan_fields_length_no_quote [] _ (no_quote_join row Hq)).
  apply count_char_join_commas. by destruct row.
Qed.

Lemma parseRow_join_field_count_witness :
  nonempty [lit "Oslo, Norway"; lit "30"] = true /\
  length (parseRow (join [COMMA] [lit "Oslo, Norway"; lit "30"]))
  = (length [lit "Oslo, Norway"; lit "30"]
     + sum_list (map (count_char COMMA) [lit "Oslo, Norway"; lit "30"]))%nat.
Proof.
  split; [reflexivity|].
  apply (parseRow_join_field_count [lit "Oslo, Norway"; lit "30"]);
    [reflexivity | repeat constructor; discriminate].
Defined.

End RoundTrip.

Section ContentRoundTrip.
Import Parser.

Lemma split_no_sep (s : jsstring) :
  forallb (fun x => negb (x =? LF)) s = true -> split (N.eqb LF) s = [s].
Proof.
  induction s as [|x s IH]; cbn [split forallb]; [done|].
  intros [Hx%negb_true_iff Hs]%andb_prop.
  rewrite (N.eqb_sym LF x), Hx. by rewrite (IH Hs).
Qed.

Lemma split_app_sep (s rest : jsstring) :
  forallb (fun x => negb (x =? LF)) s = true ->
  split (N.eqb LF) (s ++ LF :: rest) = s :: split (N.eqb LF) rest.
Proof.
  induction s as [|x s IH]; cbn [split forallb app].
  { by rewrite N.eqb_refl. }
  intros [Hx%negb_true_iff Hs]%andb_prop.
  rewrite (N.eqb_sym LF x), Hx. by rewrite (IH Hs).
Qed.

Lemma split_join_lines (lines : list jsstring) :
  lines <> [] ->
  forallb (forallb (fun x => negb (x =? LF))) lines = true ->
  split (N.eqb LF) (join [LF] lines) = lines.
Proof.
  induction lines as [|l lines IH]; [done|]. intros _ H.
  simpl in H. apply andb_prop in H as [Hl Hlines].
  destruct lines as [|l2 lines]; [by apply split_no_sep|].
  change (join [LF] (l :: l2 :: lines)) with (l ++ LF :: join [LF] (l2 :: lines)).
  rewrite (split_app_sep l _ Hl). f_equal. by apply IH.
Qed.

Lemma forallb_join (P : N -> bool) (sep : jsstring) (parts : list jsstring) :
  forallb P sep = true -> forallb (forallb P) parts = true ->
  forallb P (join sep parts) = true.
Proof.
  intros Hsep. induction parts as [|p parts IH]; [done|]. simpl.
  intros [Hp Hparts]%andb_prop.
  destruct parts as [|p2 parts]; [done|].
  rewrite !forallb_app, Hp, Hsep. simpl. by apply IH.
Qed.

Lemma head_join (sep p : jsstring) (rest : list jsstring) :
  p <> [] -> head (join sep (p :: rest)) = head p.
Proof. intros Hp. destruct rest; simpl; [done|]. by destruct p. Qed.

Lemma last_join (sep : jsstring) (parts : list jsstring) (q : jsstring) :
  last parts = Some q -> q <> [] -> last (join sep parts) = last q.
Proof.
  intros Hq Hne. induction parts as [|p parts IH]; [done|].
  destruct parts as [|p2 parts]; [by injection Hq as ->|].
  change (join sep (p :: p2 :: parts)) with (p ++ sep ++ join sep (p2 :: parts)).
  rewrite last_cons_cons in Hq. specialize (IH Hq).
  rewrite !last_app, IH.
  destruct (last q) eqn:E; [done|]. by apply last_None in E.
Qed.

Lemma is_trimmed_ends (s : jsstring) (a z : N) :
  head s = Some a -> last s = Some z ->
  is_trimmed s = true -> is_whitespace a = false /\ is_whitespace z = false.
Proof.
  unfold is_trimmed. intros -> ->.
  by intros [H1%negb_true_iff H2%negb_true_iff]%andb_prop.
Qed.

Lemma plain_cell_parts (c : jsstring) :
  plain_cell c = true ->
  bare_field c = true /\ forallb (fun x => negb (x =? LF)) c = true /\
  is_trimmed c = true.
Proof.
  unfold plain_cell. intros [Hb Hlf]%andb_prop. repeat split; [done..|].
  unfold bare_field in Hb. by apply andb_prop in Hb as [_ ?].
Qed.

Lemma plain_row_line (row : list jsstring) :
  forallb plain_cell row = true ->
  forallb bare_field row = true /\
  forallb (fun x => negb (x =? LF)) (join [COMMA] row) = true.
Proof.
  intros H. split.
  - rewrite forallb_forall in *. intros c Hc.
    by apply plain_cell_parts, H.
  - apply forallb_join; [done|].
    rewrite forallb_forall in *. intros c Hc.
    by apply plain_cell_parts, H.
Qed.

(** The exported text of a table has no whitespace at either end when
    its first and its last cell are not empty and every cell is plain. *)
Lemma csvText_is_trimmed (rows : list (list jsstring)) :
  forallb (forallb plain_cell) rows = true ->
  solid_ends rows = true ->
  is_trimmed (join [LF] (map (join [COMMA]) rows)) = true.
Proof.
  intros Hplain Hends. unfold solid_ends in Hends.
  destruct rows as [|r0 rows]; [done|].
  destruct r0 as [|c0 r0]; [done|].
  destruct c0 as [|a c0]; [done|]. cbn [head mbind option_bind] in Hends.
  destruct (last ((((a :: c0) :: r0)) :: rows)) as [rz|] eqn:Hrz; [|done].
  cbn [mbind option_bind] in Hends.
  destruct (last rz) as [cz|] eqn:Hcz; [|done].
  destruct cz as [|b cz]; [done|]. clear Hends.
  assert (Hc0 : plain_cell (a :: c0) = true).
  { cbn [forallb] in Hplain. apply andb_prop in Hplain as [Hrow _].
    by apply andb_prop in Hrow as [? _]. }
  assert (Hcz' : plain_cell (b :: cz) = true).
  { rewrite forallb_forall in Hplain.
    assert (Hin : In rz (((a :: c0) :: r0) :: rows))
      by (apply list_elem_of_In; by eapply last_Some_elem_of).
    specialize (Hplain rz Hin). rewrite forallb_forall in Hplain.
    apply Hplain. apply list_elem_of_In. by eapply last_Some_elem_of. }
  set (content := join [LF] (map (join [COMMA]) (((a :: c0) :: r0) :: rows))).
  assert (Hhead : head content = Some a).
  { unfold content. cbn [map]. rewrite head_join.
    - by rewrite head_join.
    - intros E. apply (f_equal head) in E. by rewrite head_join in E. }
  destruct (last (b :: cz)) as [z|] eqn:Hz; [|by apply last_None in Hz].
  assert (Hlast : last content = Some z).
  { unfold content.
    rewrite (last_join [LF] _ (join [COMMA] rz)).
    - by rewrite (last_join [COMMA] rz (b :: cz)).
    - change (map (join [COMMA]) (((a :: c0) :: r0) :: rows))
        with (join [COMMA] <$> (((a :: c0) :: r0) :: rows)).
      by rewrite fmap_last, Hrz.
    - intros E. apply (f_equal last) in E.
      by rewrite (last_join [COMMA] rz (b :: cz)), Hz in E. }
  destruct (plain_cell_parts _ Hc0) as (_ & _ & Ht0).
  destruct (plain_cell_parts _ Hcz') as (_ & _ & Htz).
  destruct (last (a :: c0)) as [z0|] eqn:Hz0; [|by apply last_None in Hz0].
  destruct (is_trimmed_ends (a :: c0) a z0 eq_refl Hz0 Ht0) as [Ha _].
  destruct (is_trimmed_ends (b :: cz) b z eq_refl Hz Htz) as [_ Hzz].
  unfold is_trimmed. by rewrite Hhead, Hlast, Ha, Hzz.
Qed.

(** X2: Export then import: parsing the text that [handleDownloadCsv] writes
    for a table gives its headers and rows back, when no row is empty,
    every cell is plain (no comma, quote, line feed, or whitespace at
    either end) and the first and the last cell are not empty. *)
Theorem parseCsvContent_csvText (headers : list jsstring)
    (data : list (list jsstring)) :
  forallb nonempty (headers :: data) = true ->
  forallb (forallb plain_cell) (headers :: data) = true ->
  solid_ends (headers :: data) = true ->
  parseCsvContent (Download.csvText headers data) = mkParsed headers data.
Proof.
  intros Hne Hplain Hends. unfold parseCsvContent, Download.csvText.
  rewrite (trim_trimmed _ (csvText_is_trimmed _ Hplain Hends)).
  rewrite split_join_lines.
  - simpl in Hne, Hplain.
    apply andb_prop in Hne as [Hne0 Hne], Hplain as [Hp0 Hplain].
    cbn [map length Nat.eqb hd tl]. f_equal.
    + rewrite parseRow_scan. apply scan_fields_join;
        [by destruct headers | by apply plain_row_line].
    + rewrite map_map. rewrite <- (map_id data) at 2.
      apply map_ext_in. intros row Hrow.
      rewrite forallb_forall in Hne, Hplain.
      rewrite parseRow_scan. apply scan_fields_join;
        [|by apply plain_row_line, Hplain].
      specialize (Hne row Hrow). by destruct row.
  - done.
  - rewrite forallb_forall. intros line Hline.
    apply in_map_iff in Hline as (row & <- & Hrow).
    rewrite forallb_forall in Hplain. by apply plain_row_line, Hplain.
Qed.

Lemma parseCsvContent_csvText_witness :
  parseCsvContent
    (Download.csvText [lit "Name"; lit "Age"]
                      [[lit "Ann Lee"; lit "30"]; [lit "Bob"; []]; [[]; lit "41"]])
  = mkParsed [lit "Name"; lit "Age"]
             [[lit "Ann Lee"; lit "30"]; [lit "Bob"; []]; [[]; lit "41"]].
Proof.
  apply (parseCsvContent_csvText [lit "Name"; lit "Age"]
           [[lit "Ann Lee"; lit "30"]; [lit "Bob"; []]; [[]; lit "41"]]);
    reflexivity.
Defined.

End ContentRoundTrip.

(** ** More on the extraction workflow *)

Section PromiseAllRejects.
Context {A : Type}.

Lemma promise_all_run_rejects (promises : list (outcome A)) (i : nat) (e : Thrown)
    (arrivals : list nat) (values : list (option A)) :
  promises !! i = Some (Threw e) ->
  values !! i = Some None ->
  i ∈ arrivals ->
  exists e', promise_all_run promises arrivals values = Threw e'.
Proof.
  intros Hi. revert values.
  induction arrivals as [|k rest IH]; intros values Hslot Hin;
    [by apply not_elem_of_nil in Hin|].
  cbn [promise_all_run].
  destruct (decide (k = i)) as [->|Hne].
  - rewrite Hslot, Hi. by exists e.
  - apply elem_of_cons in Hin as [->|Hin]; [done|].
    destruct (values !! k) as [[v|]|] eqn:Hk; [by apply IH| |by apply IH].
    destruct (promises !! k) as [[v|e2|]|] eqn:Hpk;
      [|by exists e2|by apply IH|by apply IH].
    rewrite (proj2 (mapM_None (fun slot : option A => slot) _)).
    + apply IH; [|done]. by rewrite list_lookup_insert_ne.
    + apply Exists_exists. exists None. split; [|done].
      apply list_elem_of_lookup. exists i. by rewrite list_lookup_insert_ne.
Qed.

(** When one of the promises rejects and its settlement arrives,
    [Promise.all] rejects. *)
Lemma promise_all_rejects (promises : list (outcome A)) (i : nat) (e : Thrown)
    (arrivals : list nat) :
  promises !! i = Some (Threw e) -> i ∈ arrivals ->
  exists e', promise_all promises arrivals = Threw e'.
Proof.
  intros Hi Hin.
  assert (Hrun : promise_all promises arrivals
                 = promise_all_run promises arrivals
                     (replicate (length promises) None))
    by (unfold promise_all; by destruct promises).
  rewrite Hrun.
  apply (promise_all_run_rejects promises i e); [done | | done].
  apply lookup_replicate_2. by eapply lookup_lt_Some.
Qed.

End PromiseAllRejects.

Section WorkflowExtras.
Import Types Api.

(** X8: When the upload itself fails, nothing else is requested, the document
    ends in [error] without text or tables, and the message of the error
    is shown. *)
Theorem upload_failure_is_fatal (srv : Server) (arrivals : list nat)
    (newId : jsstring) (now : N) (file : File) (app : App.AppState)
    (log : list Request) (message : jsstring) :
  srv_upload srv file = Threw (ErrorObj message) ->
  let after := App.handleFileUpload srv arrivals newId now file app log in
  status <$> App.currentFile (fst after) = Some status_error /\
  App.currentFile (fst after) ≫= markdown = None /\
  App.currentFile (fst after) ≫= csvFiles = None /\
  App.isProcessing (fst after) = false /\
  last (App.toasts (fst after)) = Some (App.toast_error message) /\
  snd after = log ++ [POST_upload file].
Proof.
  intros Hup. unfold App.handleFileUpload, processFile, bind, uploadFile, request.
  rewrite Hup. cbn. by rewrite last_snoc.
Qed.

Lemma upload_failure_is_fatal_witness :
  let after :=
    App.handleFileUpload SampleFailures.server_rejecting [] (lit "k3j9x") 17
      Sample.file Sample.idle [] in
  status <$> App.currentFile (fst after) = Some status_error /\
  App.currentFile (fst after) ≫= markdown = None /\
  App.currentFile (fst after) ≫= csvFiles = None /\
  App.isProcessing (fst after) = false /\
  last (App.toasts (fst after)) = Some (App.toast_error (lit "Unsupported file")) /\
  snd after = [] ++ [POST_upload Sample.file].
Proof.
  apply (upload_failure_is_fatal SampleFailures.server_rejecting [] (lit "k3j9x") 17
           Sample.file Sample.idle [] (lit "Unsupported file")).
  reflexivity.
Defined.

Lemma downloadTables_log (srv : Server) (doc : jsstring) (files : list jsstring)
    (arrivals : list nat) (log : list Request) :
  fst (downloadTables srv doc files arrivals log)
  = log ++ map (fun filePath => GET_download_table doc (table_filename filePath)) files.
Proof. unfold downloadTables. cbn [fst]. by rewrite map_map. Qed.

(** X10: Once the upload, the text and the table extraction have succeeded,
    the requests sent are these three and one download per reported
    table, in the order of the report, however the downloads end and in
    whatever order they arrive. *)
Theorem requests_follow_the_report (srv : Server) (arrivals : list nat)
    (newId : jsstring) (now : N) (file : File) (app : App.AppState)
    (log : list Request) (up : UploadResponse) (md : jsstring)
    (te : TableExtractionResponse) :
  srv_upload srv file = Returned up ->
  srv_download srv (merged_path up) = Returned md ->
  srv_filter_tables srv (merged_path up) = Returned te ->
  snd (App.handleFileUpload srv arrivals newId now file app log)
  = log ++ [POST_upload file; GET_download (merged_path up);
            POST_filter_tables (merged_path up)]
        ++ map (fun filePath =>
                  GET_download_table (merged_path up) (table_filename filePath))
               (excel_files te).
Proof.
  intros Hup Hmd Hte.
  unfold App.handleFileUpload, processFile, bind, try_catch, uploadFile,
    downloadMarkdown, filterTables, request, ret.
  rewrite Hup, Hmd, Hte.
  destruct (0 <? length (excel_files te))%nat eqn:Hlen.
  - pose proof (downloadTables_log srv (merged_path up) (excel_files te) arrivals
                  (((log ++ [POST_upload file]) ++ [GET_download (merged_path up)])
                     ++ [POST_filter_tables (merged_path up)])) as Hlog.
    destruct (downloadTables _ _ _ _ _) as [log' r]. cbn [fst] in Hlog. subst log'.
    rewrite <- !app_assoc. by destruct r.
  - apply Nat.ltb_ge in Hlen.
    destruct (excel_files te) as [|? ?]; [|simpl in Hlen; lia].
    cbn. by rewrite <- !app_assoc.
Qed.

Lemma requests_follow_the_report_witness :
  snd (App.handleFileUpload Sample.server [1; 0]%nat (lit "k3j9x") 17
         Sample.file Sample.idle [])
  = [] ++ [POST_upload Sample.file; GET_download (lit "report");
           POST_filter_tables (lit "report")]
       ++ map (fun filePath =>
                 GET_download_table (lit "report") (table_filename filePath))
              [lit "outputs/tables/table_1.csv"; lit "outputs/tables/table_2.csv";
               lit "outputs/tables/table_3.csv"].
Proof.
  apply (requests_follow_the_report Sample.server [1; 0]%nat (lit "k3j9x") 17
           Sample.file Sample.idle []
           (mkUploadResponse (lit "success") (lit "report.pdf") (lit "report"))
           (lit "# Report")
           (mkTableExtractionResponse (lit "success") (lit "report")
              (lit "outputs/report.md") 3 (lit "outputs/tables")
              [lit "outputs/tables/table_1.csv"; lit "outputs/tables/table_2.csv";
               lit "outputs/tables/table_3.csv"]));
    reflexivity.
Defined.

(** X9: One failed table download empties the whole batch: when any of the
    reported tables fails to download, the document is still completed,
    with its text, but with no table at all. *)
Theorem one_failed_table_drops_all (srv : Server) (arrivals : list nat)
    (newId : jsstring) (now : N) (file : File) (app : App.AppState)
    (log : list Request) (up : UploadResponse) (md : jsstring)
    (te : TableExtractionResponse) (i : nat) (filePath : jsstring) (e : Thrown) :
  srv_upload srv file = Returned up ->
  srv_download srv (merged_path up) = Returned md ->
  srv_filter_tables srv (merged_path up) = Returned te ->
  arrivals ≡ₚ seq 0 (length (excel_files te)) ->
  excel_files te !! i = Some filePath ->
  srv_download_table srv (merged_path up) (table_filename filePath) = Threw e ->
  App.currentFile (fst (App.handleFileUpload srv arrivals newId now file app log))
  = Some (mkProcessedFile newId (file_name file)
            (if startsWith (lit "image/") (file_type file)
             then kind_image else kind_pdf)
            now status_completed
            (Some (mkMarkdownFile md (merged_path up ++ lit ".md") None))
            (Some [])).
Proof.
  intros Hup Hmd Hte Hperm Hi He.
  assert (Hlen : (0 <? length (excel_files te))%nat = true).
  { apply Nat.ltb_lt. apply lookup_lt_Some in Hi. lia. }
  unfold App.handleFileUpload, processFile, bind, try_catch, uploadFile,
    downloadMarkdown, filterTables, request, ret.
  rewrite Hup, Hmd, Hte, Hlen.
  unfold downloadTables.
  edestruct (promise_all_rejects
               (map (fun filename =>
                       outcome_map (table_of_download filename)
                         (srv_download_table srv (merged_path up) filename))
                    (map table_filename (excel_files te)))
               i e arrivals) as [e' He'].
  - rewrite !map_is_fmap, !list_lookup_fmap, Hi. cbn. by rewrite He.
  - rewrite Hperm. apply elem_of_seq. apply lookup_lt_Some in Hi. lia.
  - by rewrite He'.
Qed.

Lemma one_failed_table_drops_all_witness :
  App.currentFile
    (fst (App.handleFileUpload SampleFailures.server_missing_table [2; 0; 1]%nat
            (lit "k3j9x") 17 Sample.file Sample.idle []))
  = Some (mkProcessedFile (lit "k3j9x") (lit "report.pdf")
            (if startsWith (lit "image/") (lit "application/pdf")
             then kind_image else kind_pdf)
            17 status_completed
            (Some (mkMarkdownFile (lit "# Report") (lit "report" ++ lit ".md") None))
            (Some [])).
Proof.
  apply (one_failed_table_drops_all SampleFailures.server_missing_table [2; 0; 1]%nat
           (lit "k3j9x") 17 Sample.file Sample.idle []
           (mkUploadResponse (lit "success") (lit "report.pdf") (lit "report"))
           (lit "# Report")
           (mkTableExtractionResponse (lit "success") (lit "report")
              (lit "outputs/report.md") 3 (lit "outputs/tables")
              [lit "outputs/tables/table_1.csv"; lit "outputs/tables/table_2.csv";
               lit "outputs/tables/table_3.csv"])
           1%nat (lit "outputs/tables/table_2.csv")
           (ErrorObj (lit "CSV download failed")));
    try reflexivity.
  exact sample_arrivals.
Defined.

End WorkflowExtras.

Section IdentifierFacts.
Import Types Api.

Lemma lit_inj (a b : string) : lit a = lit b -> a = b.
Proof.
  unfold lit. intros H.
  rewrite <- (string_of_list_ascii_of_string a),
          <- (string_of_list_ascii_of_string b).
  f_equal. revert H.
  generalize (list_ascii_of_string a) (list_ascii_of_string b).
  induction l as [|x l IH]; intros [|y k]; simpl; try done.
  intros [= Hxy Hlk]. f_equal; [|by apply IH].
  rewrite <- (ascii_N_embedding x), <- (ascii_N_embedding y). by rewrite Hxy.
Qed.

Lemma table_id_inj (i j : nat) :
  lit ("csv-" +:+ pretty i) = lit ("csv-" +:+ pretty j) -> i = j.
Proof.
  intros H%lit_inj. apply String.app_inj in H.
  by apply (inj pretty) in H.
Qed.

Lemma find_by_position {A : Type} (name : nat -> jsstring)
    (g : nat -> A -> CsvFile) (items : list A) (i : nat) (csv : CsvFile) :
  (forall j k, name j = name k -> j = k) ->
  (forall j a, csv_id (g j a) = name j) ->
  imap g items !! i = Some csv ->
  List.find (fun c => str_eq (csv_id c) (name i)) (imap g items) = Some csv.
Proof.
  revert name g i. induction items as [|a items IH]; intros name g i Hinj Hid Hi;
    [done|].
  cbn [imap List.find]. unfold str_eq at 1. rewrite Hid.
  destruct i as [|i].
  - rewrite bool_decide_eq_true_2 by done. by injection Hi as ->.
  - rewrite bool_decide_eq_false_2 by (intros E; by apply Hinj in E).
    apply (IH (name ∘ S) (g ∘ S) i).
    + intros j k E. apply Hinj in E. lia.
    + intros j b. apply Hid.
    + exact Hi.
Qed.

(** X11: After an upload, however it went, the identifier [csv-i] selects the
    table at position [i] of the document: identifiers are one per
    position. *)
Theorem table_id_selects_its_position (srv : Server) (arrivals : list nat)
    (newId : jsstring) (now : N) (file : File) (app : App.AppState)
    (log : list Request) (i : nat) (csv : CsvFile) :
  let file' :=
    App.currentFile (fst (App.handleFileUpload srv arrivals newId now file app log)) in
  ResultsPanel.csvFilesOf file' !! i = Some csv ->
  ResultsPanel.selectedCsv file' (lit ("csv-" +:+ pretty i)) = Some csv.
Proof.
  unfold App.handleFileUpload.
  destruct (processFile srv arrivals file log) as [log' [result|e|]]; cbn;
    [|done..].
  unfold ResultsPanel.selectedCsv, ResultsPanel.csvFilesOf. cbn.
  unfold App.csvFiles_of_result.
  destruct (csv_files result) as [files|]; [|done].
  apply (find_by_position (fun j : nat => lit ("csv-" +:+ pretty j)));
    [apply table_id_inj | done].
Qed.

Lemma table_id_selects_its_position_witness :
  let file' :=
    App.currentFile
      (fst (App.handleFileUpload Sample.server [2; 0; 1]%nat (lit "k3j9x") 17
              Sample.file Sample.idle [])) in
  ResultsPanel.selectedCsv file' (lit ("csv-" +:+ pretty 1%nat))
  = Some (App.table_at 1 (lit "outputs/tables/table_2.csv",
                          Sample.table_text (lit "table_2.csv"))).
Proof.
  apply (table_id_selects_its_position Sample.server [2; 0; 1]%nat (lit "k3j9x") 17
           Sample.file Sample.idle [] 1%nat).
  reflexivity.
Defined.

Lemma run_keeps_well_formed (newId name : jsstring) (ops : list EditState.Op)
    (w : EditState.World) :
  (exists f, App.currentFile (EditState.app w) = Some f /\
             wellFormed f = true /\ pf_id f = newId /\ pf_name f = name) ->
  exists f, App.currentFile (EditState.app (EditState.run None ops w)) = Some f /\
            wellFormed f = true /\ pf_id f = newId /\ pf_name f = name.
Proof.
  unfold EditState.run. revert w.
  induction ops as [|op ops IH]; intros w Hw; [done|].
  simpl. apply IH. destruct Hw as (f & Hf & Hwf & Hid & Hname).
  destruct op as [content|csvId headers data|csvId]; cbn.
  - rewrite Hf. cbn. unfold wellFormed in *.
    destruct (markdown f) as [md|] eqn:Hmd; cbn; eexists;
      (split; [reflexivity|]); [|by rewrite ?Hmd].
    cbn. destruct (status f), (csvFiles f); done.
  - rewrite Hf. cbn. unfold wellFormed in *.
    destruct (csvFiles f) as [files|] eqn:Hfiles; cbn; eexists;
      (split; [reflexivity|]); [|by rewrite ?Hfiles].
    cbn. destruct (status f), (markdown f); done.
  - unfold EditState.transformTableOp.
    destruct (ResultsPanel.selectedCsv _ _); cbn; eauto.
Qed.

(** X12: The file the application holds after an upload and any sequence of
    text and table saves (and transforms, which [App] leaves without a
    callback) is the uploaded one, with text and tables exactly when it
    is completed. *)
Theorem uploaded_file_stays_well_formed (srv : Server) (arrivals : list nat)
    (newId : jsstring) (now : N) (file : File) (app : App.AppState)
    (log : list Request) (viewer : CsvViewer.ViewerState)
    (panel : ResultsPanel.PanelState) (ops : list EditState.Op) :
  let uploaded := App.handleFileUpload srv arrivals newId now file app log in
  let w := EditState.run None ops
             (EditState.mkWorld viewer panel (fst uploaded) (snd uploaded)) in
  exists f, App.currentFile (EditState.app w) = Some f /\
            wellFormed f = true /\
            pf_id f = newId /\ pf_name f = file_name file.
Proof.
  intros uploaded w. apply run_keeps_well_formed. cbn [EditState.app].
  unfold uploaded, App.handleFileUpload.
  destruct (processFile srv arrivals file log) as [log' [result|e|]];
    cbn; eexists; (split; [reflexivity | done]).
Qed.

End IdentifierFacts.

(** ** More on the edit state *)

Section EditStateExtras.
Import Types Api EditState.

Lemma map_unchanged {A : Type} (test : A -> bool) (f : A -> A) (l : list A) :
  List.find test l = None ->
  map (fun a => if test a then f a else a) l = l.
Proof.
  induction l as [|a l IH]; simpl; [done|].
  destruct (test a); [done|]. intros H. by rewrite IH.
Qed.

Lemma saveCsv_unknown (csvId : jsstring) (headers : list jsstring)
    (data : list (list jsstring)) (file : option ProcessedFile) :
  ResultsPanel.selectedCsv file csvId = None ->
  App.saveCsv csvId headers data file = file.
Proof.
  unfold ResultsPanel.selectedCsv, ResultsPanel.csvFilesOf, App.saveCsv.
  destruct file as [f|]; [|done]. cbn.
  destruct f as [i n t u s m [files|]]; cbn; [|done].
  intros H.
  by rewrite (map_unchanged (fun c => str_eq (csv_id c) csvId)
                (fun c => App.overridden c headers data) files H).
Qed.

Lemma currentFile_saveTable (w : World) (csvId : jsstring)
    (H : list jsstring) (R : list (list jsstring)) :
  App.currentFile (app (saveTable csvId H R w))
  = App.saveCsv csvId H R (App.currentFile (app w)).
Proof. reflexivity. Qed.

Lemma currentFile_saveText (w : World) (content : jsstring) :
  App.currentFile (app (saveText content w))
  = App.saveMarkdown content (App.currentFile (app w)).
Proof. reflexivity. Qed.

(** X13: Saving a table under an identifier the file does not have changes
    nothing in the file, yet the save is acknowledged and the version
    counter moves. *)
Theorem saveTable_unknown_id (w : World) (csvId : jsstring)
    (H : list jsstring) (R : list (list jsstring)) :
  ResultsPanel.selectedCsv (App.currentFile (app w)) csvId = None ->
  let w' := saveTable csvId H R w in
  App.currentFile (app w') = App.currentFile (app w) /\
  ResultsPanel.csvVersion (panel w') = S (ResultsPanel.csvVersion (panel w)) /\
  last (App.toasts (app w')) = Some (App.toast_success (lit "CSV saved!")).
Proof.
  intros Hnone w'. unfold w'.
  rewrite currentFile_saveTable, (saveCsv_unknown _ _ _ _ Hnone).
  split; [done|]. split; [done|]. cbn. by rewrite last_snoc.
Qed.

Lemma saveTable_unknown_id_witness :
  let w' := saveTable (lit "csv-7") [lit "Who"] [[lit "Ann"]] Sample.world in
  App.currentFile (app w') = App.currentFile (app Sample.world) /\
  ResultsPanel.csvVersion (panel w')
  = S (ResultsPanel.csvVersion (panel Sample.world)) /\
  last (App.toasts (app w')) = Some (App.toast_success (lit "CSV saved!")).
Proof.
  apply (saveTable_unknown_id Sample.world (lit "csv-7") [lit "Who"] [[lit "Ann"]]).
  reflexivity.
Defined.

Lemma selectedCsv_saveCsv_other (file : option ProcessedFile)
    (csvId other : jsstring) (headers : list jsstring)
    (data : list (list jsstring)) :
  other <> csvId ->
  ResultsPanel.selectedCsv (App.saveCsv csvId headers data file) other
  = ResultsPanel.selectedCsv file other.
Proof.
  intros Hne. unfold ResultsPanel.selectedCsv, ResultsPanel.csvFilesOf, App.saveCsv.
  destruct file as [f|]; [|done]. cbn.
  destruct (csvFiles f) as [files|] eqn:Hfiles; cbn; [|by rewrite Hfiles].
  rewrite find_map_same_test.
  - destruct (List.find _ files) as [c|] eqn:Hfind; [|done]. cbn.
    apply List.find_some in Hfind as [_ Hc].
    apply bool_decide_eq_true_1 in Hc.
    unfold str_eq. rewrite bool_decide_eq_false_2; [done | congruence].
  - intros c. cbv beta. by destruct (str_eq (csv_id c) csvId).
Qed.

(** X14: Saving one table leaves every other table of the file, and the text,
    as a reader sees them. *)
Theorem saveTable_leaves_the_rest (w : World) (csvId other : jsstring)
    (H : list jsstring) (R : list (list jsstring)) :
  other <> csvId ->
  effectiveTable (saveTable csvId H R w) other = effectiveTable w other /\
  effectiveText (saveTable csvId H R w) = effectiveText w.
Proof.
  intros Hne. split.
  - unfold effectiveTable.
    by rewrite currentFile_saveTable, selectedCsv_saveCsv_other.
  - unfold effectiveText. rewrite currentFile_saveTable.
    destruct (App.currentFile (app w)) as [f|]; [|done]. cbn.
    by destruct (csvFiles f).
Qed.

Lemma saveTable_leaves_the_rest_witness :
  effectiveTable (saveTable (lit "csv-1") [lit "Who"] [[lit "Ann"]] Sample.world)
                 (lit "csv-0")
  = effectiveTable Sample.world (lit "csv-0") /\
  effectiveText (saveTable (lit "csv-1") [lit "Who"] [[lit "Ann"]] Sample.world)
  = effectiveText Sample.world.
Proof.
  apply (saveTable_leaves_the_rest Sample.world (lit "csv-1") (lit "csv-0")).
  discriminate.
Defined.

Lemma saveCsv_twice (csvId : jsstring) (H1 H2 : list jsstring)
    (R1 R2 : list (list jsstring)) (file : option ProcessedFile) :
  App.saveCsv csvId H2 R2 (App.saveCsv csvId H1 R1 file)
  = App.saveCsv csvId H2 R2 file.
Proof.
  unfold App.saveCsv. destruct file as [f|]; [|done].
  destruct (csvFiles f) as [files|] eqn:Hfiles; cbn; [|by rewrite Hfiles].
  do 2 f_equal. rewrite map_map. f_equal. apply map_ext. intros c.
  destruct (str_eq (csv_id c) csvId) eqn:E; cbn; by rewrite E.
Qed.

(** X15: The last save wins: an override replaces the one before it whole, so
    two saves of a table leave the file as the second alone does. *)
Theorem saveTable_last_wins (w : World) (csvId : jsstring)
    (H1 H2 : list jsstring) (R1 R2 : list (list jsstring)) :
  App.currentFile (app (saveTable csvId H2 R2 (saveTable csvId H1 R1 w)))
  = App.currentFile (app (saveTable csvId H2 R2 w)).
Proof. rewrite !currentFile_saveTable. apply saveCsv_twice. Qed.

(** X16: After a save no effective header row and no effective row is wider
    than the original header row, and there are as many rows as were
    saved. *)
Theorem saveTable_width_bound (w : World) (csvId : jsstring)
    (H : list jsstring) (R : list (list jsstring)) (csv : CsvFile) :
  ResultsPanel.selectedCsv (App.currentFile (app w)) csvId = Some csv ->
  exists hs rows,
    effectiveTable (saveTable csvId H R w) csvId = Some (hs, rows) /\
    (length hs <= length (csv_headers csv))%nat /\
    Forall (fun row => (length row <= length (csv_headers csv))%nat) rows /\
    length rows = length R.
Proof.
  intros Hsel. eexists _, _. split.
  - unfold effectiveTable.
    by rewrite currentFile_saveTable, (selectedCsv_saveCsv _ _ H R csv Hsel).
  - cbn. split; [|split].
    + rewrite length_take. lia.
    + apply Forall_map, Forall_forall. intros row _. cbn.
      rewrite length_take. lia.
    + by rewrite length_map.
Qed.

Lemma saveTable_width_bound_witness :
  exists hs rows,
    effectiveTable (saveTable (lit "csv-0") [lit "A"; lit "B"; lit "C"]
                              [[lit "1"; lit "2"; lit "3"]; []] Sample.world)
                   (lit "csv-0") = Some (hs, rows) /\
    (length hs <= length (csv_headers Sample.table0))%nat /\
    Forall (fun row => (length row <= length (csv_headers Sample.table0))%nat) rows /\
    length rows = length [[lit "1"; lit "2"; lit "3"]; []].
Proof.
  apply (saveTable_width_bound Sample.world (lit "csv-0") [lit "A"; lit "B"; lit "C"]
           [[lit "1"; lit "2"; lit "3"]; []] Sample.table0).
  reflexivity.
Defined.

(** X17: Saving a text while the file has none (no file, or one that is
    processing or failed) changes nothing in the file. *)
Theorem saveText_without_text (w : World) (content : jsstring) :
  App.currentFile (app w) ≫= markdown = None ->
  App.currentFile (app (saveText content w)) = App.currentFile (app w).
Proof.
  intros H. rewrite currentFile_saveText.
  destruct (App.currentFile (app w)) as [f|]; [|done].
  cbn in *. by rewrite H.
Qed.

Lemma saveText_without_text_witness :
  App.currentFile
    (app (saveText (lit "# New")
            (mkWorld (viewer Sample.world) (panel Sample.world) Sample.idle [])))
  = App.currentFile
      (app (mkWorld (viewer Sample.world) (panel Sample.world) Sample.idle [])).
Proof.
  apply (saveText_without_text
           (mkWorld (viewer Sample.world) (panel Sample.world) Sample.idle [])
           (lit "# New")).
  reflexivity.
Defined.

(** X18: Saving a text leaves every table of the file as a reader sees it,
    and the original text where it was. *)
Theorem saveText_leaves_the_rest (w : World) (content csvId : jsstring) :
  effectiveTable (saveText content w) csvId = effectiveTable w csvId /\
  (md_content <$> (App.currentFile (app (saveText content w)) ≫= markdown))
  = (md_content <$> (App.currentFile (app w) ≫= markdown)).
Proof.
  unfold effectiveTable, ResultsPanel.selectedCsv, ResultsPanel.csvFilesOf.
  rewrite currentFile_saveText.
  destruct (App.currentFile (app w)) as [f|]; [|done]. cbn.
  destruct (markdown f) as [md|] eqn:E; cbn; by rewrite ?E.
Qed.

(** X19: Saving what [MarkdownViewer] displays, without typing, changes
    nothing for a reader: the effective text is the one before. *)
Theorem save_displayed_text (w : World) (md : MarkdownFile) :
  App.currentFile (app w) ≫= markdown = Some md ->
  let st := MarkdownEditing.startEdit (MarkdownEditing.mount md) in
  effectiveText (snd (MarkdownEditing.handleSave saveText st w))
  = effectiveText w.
Proof.
  intros Hmd st. unfold effectiveText, MarkdownEditing.handleSave. cbn [snd].
  rewrite currentFile_saveText.
  destruct (App.currentFile (app w)) as [f|]; [|done]. cbn in *.
  rewrite Hmd. cbn. unfold MarkdownViewer.displayContent. cbn.
  destruct md as [c n [[|x e]|]]; cbn; [|done|].
  - by destruct c.
  - by destruct c.
Qed.

Lemma save_displayed_text_witness :
  let st := MarkdownEditing.startEdit
              (MarkdownEditing.mount
                 (mkMarkdownFile (lit "# Report") (lit "report.md") None)) in
  effectiveText (snd (MarkdownEditing.handleSave saveText st Sample.world))
  = effectiveText Sample.world.
Proof.
  apply (save_displayed_text Sample.world
           (mkMarkdownFile (lit "# Report") (lit "report.md") None)).
  reflexivity.
Defined.

End EditStateExtras.

(** ** Editing a table in the viewer *)

Section CsvEditingFacts.
Import Types Api EditState CsvEditing.

Lemma filter_indexed_keep_all {A : Type} (keep : A -> nat -> bool) (k : nat)
    (l : list A) :
  (forall x j, (k <= j)%nat -> keep x j = true) ->
  filter_indexed keep k l = l.
Proof.
  revert k. induction l as [|x l IH]; intros k Hkeep; simpl; [done|].
  rewrite Hkeep by lia. f_equal. apply IH. intros y j Hj. apply Hkeep. lia.
Qed.

Lemma filter_indexed_delete {A : Type} (i k : nat) (l : list A) :
  filter_indexed (fun _ j => negb (j =? i + k)%nat) k l
  = take i l ++ drop (S i) l.
Proof.
  revert i k. induction l as [|x l IH]; intros i k; simpl.
  - by destruct i.
  - destruct i as [|i]; simpl.
    + rewrite Nat.eqb_refl. simpl. rewrite drop_0.
      apply filter_indexed_keep_all. intros y j Hj.
      apply negb_true_iff, Nat.eqb_neq. lia.
    + rewrite (proj2 (Nat.eqb_neq k (S (i + k)))) by lia. simpl. f_equal.
      rewrite <- (IH i (S k)).
      f_equal. by rewrite Nat.add_succ_r.
Qed.

(** X20: Delete Row removes the row at its index and keeps the others in
    their order; an index past the last row removes nothing. *)
Theorem handleDeleteRow_removes_one (rowIndex : nat) (st : EditorState) :
  editData (handleDeleteRow rowIndex st)
  = take rowIndex (editData st) ++ drop (S rowIndex) (editData st) /\
  editHeaders (handleDeleteRow rowIndex st) = editHeaders st /\
  ((length (editData st) <= rowIndex)%nat ->
   editData (handleDeleteRow rowIndex st) = editData st).
Proof.
  assert (Hdel : editData (handleDeleteRow rowIndex st)
                 = take rowIndex (editData st) ++ drop (S rowIndex) (editData st)).
  { unfold handleDeleteRow. cbn [editData].
    rewrite <- (filter_indexed_delete rowIndex 0 (editData st)).
    by rewrite Nat.add_0_r. }
  split; [exact Hdel|]. split; [done|].
  intros Hge. rewrite Hdel, take_ge, drop_ge by lia. apply app_nil_r.
Qed.

(** X21: Add Row then Delete Row on the added row gives back the state
    before. *)
Theorem add_then_delete_row (st : EditorState) :
  handleDeleteRow (length (editData st)) (handleAddRow st) = st.
Proof.
  destruct st as [e hs d]. unfold handleDeleteRow, handleAddRow.
  cbn [isEditing editHeaders editData]. f_equal.
  pose proof (filter_indexed_delete (length d) 0
                (d ++ [replicate (length hs) ([] : jsstring)])) as Hdel.
  rewrite Nat.add_0_r in Hdel. rewrite Hdel.
  rewrite take_app_length, drop_ge by (rewrite length_app; simpl; lia).
  apply app_nil_r.
Qed.

Lemma handleCellChange_in_range (rowIndex colIndex : nat) (value : jsstring)
    (st : EditorState) (row : list jsstring) :
  editData st !! rowIndex = Some row ->
  (colIndex < length row)%nat ->
  handleCellChange rowIndex colIndex value st
  = Edited (mkEditor (isEditing st) (editHeaders st)
                     (<[rowIndex := <[colIndex := value]> row]> (editData st))).
Proof.
  intros Hrow Hcol. unfold handleCellChange, assign. rewrite Hrow.
  by rewrite (proj2 (Nat.ltb_lt _ _) Hcol).
Qed.

(** X22: Changing a cell that exists changes that cell and nothing else: the
    headers, the number of rows, the width of every row and every other
    cell are as before. *)
Theorem handleCellChange_changes_one_cell (rowIndex colIndex : nat)
    (value : jsstring) (st : EditorState) (row : list jsstring) :
  editData st !! rowIndex = Some row ->
  (colIndex < length row)%nat ->
  exists st',
    handleCellChange rowIndex colIndex value st = Edited st' /\
    editHeaders st' = editHeaders st /\
    length <$> editData st' = length <$> editData st /\
    editData st' !! rowIndex ≫= (fun r => r !! colIndex) = Some value /\
    (forall i j, (i, j) <> (rowIndex, colIndex) ->
       editData st' !! i ≫= (fun r => r !! j)
       = editData st !! i ≫= (fun r => r !! j)).
Proof.
  intros Hrow Hcol. eexists. split;
    [by apply (handleCellChange_in_range _ _ _ _ row)|].
  cbn [editHeaders editData]. split; [done|].
  pose proof (lookup_lt_Some _ _ _ Hrow) as Hlt.
  split; [|split].
  - rewrite list_fmap_insert, length_insert.
    apply list_insert_id. by rewrite list_lookup_fmap, Hrow.
  - rewrite list_lookup_insert_eq by done. cbn.
    by rewrite list_lookup_insert_eq.
  - intros i j Hne. destruct (decide (i = rowIndex)) as [->|Hi].
    + rewrite list_lookup_insert_eq, Hrow by done. cbn.
      rewrite list_lookup_insert_ne; [done | congruence].
    + by rewrite list_lookup_insert_ne.
Qed.

Lemma handleCellChange_changes_one_cell_witness :
  exists st',
    handleCellChange 0 1 (lit "31")
      (handleStartEdit Sample.table0 mount) = Edited st' /\
    editHeaders st' = editHeaders (handleStartEdit Sample.table0 mount) /\
    length <$> editData st'
    = length <$> editData (handleStartEdit Sample.table0 mount) /\
    editData st' !! 0%nat ≫= (fun r => r !! 1%nat) = Some (lit "31") /\
    (forall i j, (i, j) <> (0, 1)%nat ->
       editData st' !! i ≫= (fun r => r !! j)
       = editData (handleStartEdit Sample.table0 mount) !! i ≫= (fun r => r !! j)).
Proof.
  apply (handleCellChange_changes_one_cell 0 1 (lit "31")
           (handleStartEdit Sample.table0 mount) [lit "Ann"; lit "30"]).
  - reflexivity.
  - simpl. lia.
Defined.

(** X23: Edit then Save without a change stores what was displayed, cut to
    the original header count; when nothing displayed is wider than
    that, the effective table is the one before. *)
Theorem edit_then_save_unchanged (w : World) (csvId : jsstring)
    (csv : CsvFile) (st : EditorState) :
  ResultsPanel.selectedCsv (App.currentFile (app w)) csvId = Some csv ->
  isEditing st = false ->
  let n := length (csv_headers csv) in
  let w' := snd (handleSave (saveTable csvId) (handleStartEdit csv st) w) in
  effectiveTable w' csvId
  = Some (take n (CsvViewer.displayHeaders csv),
          map (take n) (CsvViewer.displayData csv)) /\
  ((length (CsvViewer.displayHeaders csv) <= n)%nat ->
   Forall (fun row => (length row <= n)%nat) (CsvViewer.displayData csv) ->
   effectiveTable w' csvId = effectiveTable w csvId).
Proof.
  intros Hsel Hst n w'.
  assert (Heff : effectiveTable w' csvId
                 = Some (take n (CsvViewer.displayHeaders csv),
                         map (take n) (CsvViewer.displayData csv))).
  { unfold w', handleSave, handleStartEdit, displayHeaders, displayData.
    cbn [snd editHeaders editData]. rewrite Hst.
    unfold effectiveTable.
    by rewrite currentFile_saveTable, (selectedCsv_saveCsv _ _ _ _ csv Hsel). }
  split; [exact Heff|]. intros Hh Hd.
  rewrite Heff, (take_ge _ n Hh), (take_all_rows n _ Hd).
  unfold effectiveTable. by rewrite Hsel.
Qed.

Lemma edit_then_save_unchanged_witness :
  let n := length (csv_headers Sample.table0) in
  let w' := snd (handleSave (saveTable (lit "csv-0"))
                            (handleStartEdit Sample.table0 mount) Sample.world) in
  effectiveTable w' (lit "csv-0")
  = Some (take n (CsvViewer.displayHeaders Sample.table0),
          map (take n) (CsvViewer.displayData Sample.table0)) /\
  ((length (CsvViewer.displayHeaders Sample.table0) <= n)%nat ->
   Forall (fun row => (length row <= n)%nat) (CsvViewer.displayData Sample.table0) ->
   effectiveTable w' (lit "csv-0") = effectiveTable Sample.world (lit "csv-0")).
Proof.
  apply (edit_then_save_unchanged Sample.world (lit "csv-0") Sample.table0 mount);
    reflexivity.
Defined.

(** X24: Edit, change one cell that exists, Save: the effective table is the
    displayed one with that cell replaced, when nothing displayed is
    wider than the original header row. *)
Theorem edit_cell_then_save (w : World) (csvId : jsstring) (csv : CsvFile)
    (st : EditorState) (rowIndex colIndex : nat) (value : jsstring)
    (row : list jsstring) :
  ResultsPanel.selectedCsv (App.currentFile (app w)) csvId = Some csv ->
  isEditing st = false ->
  CsvViewer.displayData csv !! rowIndex = Some row ->
  (colIndex < length row)%nat ->
  (length (CsvViewer.displayHeaders csv) <= length (csv_headers csv))%nat ->
  Forall (fun r => (length r <= length (csv_headers csv))%nat)
         (CsvViewer.displayData csv) ->
  exists st',
    handleCellChange rowIndex colIndex value (handleStartEdit csv st) = Edited st' /\
    effectiveTable (snd (handleSave (saveTable csvId) st' w)) csvId
    = Some (CsvViewer.displayHeaders csv,
            <[rowIndex := <[colIndex := value]> row]> (CsvViewer.displayData csv)).
Proof.
  intros Hsel Hst Hrow Hcol Hh Hd.
  assert (Hbuf : editData (handleStartEdit csv st) = CsvViewer.displayData csv)
    by (unfold handleStartEdit, displayData; cbn; by rewrite Hst).
  assert (Hhs : editHeaders (handleStartEdit csv st) = CsvViewer.displayHeaders csv)
    by (unfold handleStartEdit, displayHeaders; cbn; by rewrite Hst).
  eexists. split.
  - apply (handleCellChange_in_range _ _ _ _ row); [by rewrite Hbuf | done].
  - unfold handleSave. cbn [snd editHeaders editData]. rewrite Hbuf, Hhs.
    unfold effectiveTable.
    rewrite currentFile_saveTable, (selectedCsv_saveCsv _ _ _ _ csv Hsel).
    cbn. rewrite (take_ge _ _ Hh). do 2 f_equal.
    apply take_all_rows, Forall_insert; [done|].
    rewrite length_insert. by eapply (Forall_lookup_1 _ _ _ _ Hd).
Qed.

Lemma edit_cell_then_save_witness :
  exists st',
    handleCellChange 0 1 (lit "31") (handleStartEdit Sample.table0 mount)
    = Edited st' /\
    effectiveTable (snd (handleSave (saveTable (lit "csv-0")) st' Sample.world))
                   (lit "csv-0")
    = Some (CsvViewer.displayHeaders Sample.table0,
            <[0%nat := <[1%nat := lit "31"]> [lit "Ann"; lit "30"]]>
              (CsvViewer.displayData Sample.table0)).
Proof.
  apply (edit_cell_then_save Sample.world (lit "csv-0") Sample.table0 mount
           0 1 (lit "31") [lit "Ann"; lit "30"]).
  - reflexivity.
  - reflexivity.
  - reflexivity.
  - simpl. lia.
  - simpl. lia.
  - repeat constructor.
Defined.

End CsvEditingFacts.

(** ** The mock client *)

Section MockFacts.
Import Types Api.

Lemma promise_all_run_never_rejects {A : Type} (promises : list (outcome A))
    (arrivals : list nat) (values : list (option A)) (e : Thrown) :
  Forall (fun p => forall e', p <> Threw e') promises ->
  promise_all_run promises arrivals values <> Threw e.
Proof.
  intros Hall. revert values.
  induction arrivals as [|i rest IH]; intros values; [done|].
  cbn [promise_all_run].
  destruct (values !! i) as [[v|]|]; [apply IH| |apply IH].
  destruct (promises !! i) as [[v|e2|]|] eqn:Hi; [| |apply IH|apply IH].
  - destruct (mapM _ _); [done | apply IH].
  - exfalso. by apply (Forall_lookup_1 _ _ _ _ Hall Hi e2).
Qed.

Lemma promise_all_never_rejects {A : Type} (promises : list (outcome A))
    (arrivals : list nat) (e : Thrown) :
  Forall (fun p => forall e', p <> Threw e') promises ->
  promise_all promises arrivals <> Threw e.
Proof.
  intros Hall. unfold promise_all. destruct promises; [done|].
  by apply promise_all_run_never_rejects.
Qed.

(** X25: The mock client's workflow sends no request and ends as the real
    workflow does against a service that answers as the mock, whatever
    the order in which the two table downloads arrive. *)
Theorem mock_processFile_agrees (arrivals : list nat) (file : File)
    (log log' : list Request) :
  fst (Mock.processFile arrivals file log) = log /\
  snd (Mock.processFile arrivals file log)
  = snd (processFile Mock.server arrivals file log').
Proof.
  unfold Mock.processFile, processFile, bind, try_catch, ret, uploadFile,
    downloadMarkdown, filterTables, request, downloadTables.
  cbn [Mock.server srv_upload srv_download srv_filter_tables srv_download_table
       Mock.uploadFile merged_path Mock.filterTables excel_files length Nat.ltb
       Nat.leb outcome_map].
  set (doc := Mock.strip_extension (file_name file)).
  change (map table_filename [lit "table_1.csv"; lit "table_2.csv"])
    with [lit "table_1.csv"; lit "table_2.csv"].
  cbn [map outcome_map].
  set (promises := [Returned (table_of_download (lit "table_1.csv")
                                (Mock.downloadTable doc (lit "table_1.csv")));
                    Returned (table_of_download (lit "table_2.csv")
                                (Mock.downloadTable doc (lit "table_2.csv")))]).
  pose proof (fun e => promise_all_never_rejects promises arrivals e
                         ltac:(repeat constructor; discriminate)) as Hnever.
  destruct (promise_all promises arrivals) as [tables|e|]; [done | | done].
  by destruct (Hnever e).
Qed.

Lemma is_extension_spec (ext : jsstring) :
  nonempty ext = true -> forallb (fun x => negb (x =? Mock.DOT)) ext = true ->
  Mock.is_extension (Mock.DOT :: ext) = true.
Proof. intros Hne Hext. unfold Mock.is_extension. by rewrite N.eqb_refl, Hne, Hext. Qed.

Lemma is_extension_needs_no_dot (s rest : jsstring) :
  Mock.is_extension (s ++ Mock.DOT :: rest) = true -> s = [].
Proof.
  destruct s as [|c s]; [done|]. cbn [app Mock.is_extension].
  intros [[_ _]%andb_prop Hall]%andb_prop.
  rewrite forallb_app in Hall. apply andb_prop in Hall as [_ Hall].
  cbn [forallb] in Hall. by rewrite N.eqb_refl in Hall.
Qed.

(** X26: What the mock strips from a file name: a last extension of at least
    one character is removed, dot included; a name without a dot, or
    ending in a dot, is left as it is. *)
Theorem strip_extension_spec (base ext : jsstring) :
  (nonempty ext = true ->
   forallb (fun x => negb (x =? Mock.DOT)) ext = true ->
   Mock.strip_extension (base ++ Mock.DOT :: ext) = base) /\
  (forallb (fun x => negb (x =? Mock.DOT)) base = true ->
   Mock.strip_extension base = base) /\
  Mock.strip_extension (base ++ [Mock.DOT]) = base ++ [Mock.DOT].
Proof.
  split; [|split].
  - intros Hne Hext. induction base as [|c base IH].
    + cbn [app Mock.strip_extension]. by rewrite is_extension_spec.
    + cbn [app Mock.strip_extension].
      destruct (Mock.is_extension (c :: base ++ Mock.DOT :: ext)) eqn:E;
        [|by rewrite IH].
      by apply (is_extension_needs_no_dot (c :: base) ext) in E.
  - induction base as [|c base IH]; [done|]. cbn [forallb Mock.strip_extension].
    intros [Hc%negb_true_iff Hbase]%andb_prop.
    unfold Mock.is_extension. rewrite Hc. cbn. by rewrite IH.
  - induction base as [|c base IH]; [done|]. cbn [app Mock.strip_extension].
    destruct (Mock.is_extension (c :: base ++ [Mock.DOT])) eqn:E;
      [|by rewrite IH].
    by apply (is_extension_needs_no_dot (c :: base) []) in E.
Qed.

Lemma strip_extension_spec_witness :
  Mock.strip_extension (lit "report.final" ++ Mock.DOT :: lit "pdf")
  = lit "report.final".
Proof.
  apply (strip_extension_spec (lit "report.final") (lit "pdf")); reflexivity.
Defined.

End MockFacts.

(** ** The earlier application *)

Section LegacyFacts.
Import Types.

(** X27: In the earlier [handleSaveCsv] the rows saved are stored as they
    are, at full width, and are what a reader then sees; the headers are
    not touched. *)
Theorem legacy_saveCsv_keeps_rows (app : LegacyApp.AppState)
    (csvId : jsstring) (data : list (list jsstring)) (csv : CsvFile) :
  ResultsPanel.selectedCsv (LegacyApp.currentFile app) csvId = Some csv ->
  exists csv',
    ResultsPanel.selectedCsv
      (LegacyApp.currentFile (LegacyApp.handleSaveCsv csvId data app)) csvId
    = Some csv' /\
    CsvViewer.displayData csv' = data /\
    CsvViewer.displayHeaders csv' = CsvViewer.displayHeaders csv /\
    csv_data csv' = csv_data csv.
Proof.
  intros Hsel. pose proof (selectedCsv_id _ _ _ Hsel) as Hid.
  unfold ResultsPanel.selectedCsv, ResultsPanel.csvFilesOf, LegacyApp.handleSaveCsv in *.
  destruct (LegacyApp.currentFile app) as [f|]; [|done]. cbn in Hsel.
  destruct (csvFiles f) as [files|]; [|done]. cbn in *.
  rewrite find_map_same_test.
  - rewrite Hsel. cbn. unfold str_eq. rewrite bool_decide_eq_true_2 by done.
    by eexists.
  - intros c. cbv beta. by destruct (str_eq (csv_id c) csvId) eqn:E.
Qed.

Lemma legacy_saveCsv_keeps_rows_witness :
  exists csv',
    ResultsPanel.selectedCsv
      (LegacyApp.currentFile
         (LegacyApp.handleSaveCsv (lit "csv-0")
            [[lit "Ann"; lit "31"; lit "Oslo"]]
            (LegacyApp.mkAppState (Some Sample.document) false [])))
      (lit "csv-0")
    = Some csv' /\
    CsvViewer.displayData csv' = [[lit "Ann"; lit "31"; lit "Oslo"]] /\
    CsvViewer.displayHeaders csv' = CsvViewer.displayHeaders Sample.table0 /\
    csv_data csv' = csv_data Sample.table0.
Proof.
  apply (legacy_saveCsv_keeps_rows
           (LegacyApp.mkAppState (Some Sample.document) false [])
           (lit "csv-0") [[lit "Ann"; lit "31"; lit "Oslo"]] Sample.table0).
  reflexivity.
Defined.

(** X28: The Transform2Tidy button of the earlier application never changes
    the file, whatever the service answers; without a table it sends
    nothing, and with tables it sends one request, for the rows a reader
    sees of the first table and its original headers. *)
Theorem legacy_transform_keeps_file (answer : LegacyApp.TidyRequest -> outcome unit)
    (app : LegacyApp.AppState) (sent : list LegacyApp.TidyRequest) :
  let after := fst (LegacyApp.handleTransform2Tidy answer app sent) in
  LegacyApp.currentFile (fst after) = LegacyApp.currentFile app /\
  snd after
  = sent ++ match ResultsPanel.csvFilesOf (LegacyApp.currentFile app) with
            | first :: _ =>
                [LegacyApp.mkTidyRequest (CsvViewer.displayData first)
                                         (csv_headers first)]
            | [] => []
            end.
Proof.
  unfold LegacyApp.handleTransform2Tidy, ResultsPanel.csvFilesOf.
  destruct (LegacyApp.currentFile app ≫= csvFiles) as [[|first rest]|]; cbn;
    [by rewrite app_nil_r | | by rewrite app_nil_r].
  by destruct (answer _).
Qed.

End LegacyFacts.
